(** * HardIA chat gateway: a model of [public/scripts/server.js]

    The development embeds the [/api/chat] route of the Express server:
    the request validation, the construction of the Gemini chat session,
    the race between [chat.sendMessage] and the two 15 s timers, the
    [catch] block that picks the HTTP status, and the rate limiter that is
    mounted in front of the handler.

    JavaScript data is kept as the program has it: strings are sequences
    of UTF-16 code units, values are the JSON values that [express.json]
    produces, [process.env] is a finite map from names to strings, and the
    asynchronous part of the handler runs on an explicit event loop.

    The loop follows Node: timers fire by due time and, when due at the
    same time, in the order they were created; the promise reactions
    queued by a callback all run before the next callback; [new Date()]
    reads the wall clock at the moment it is evaluated.  The SDK and the
    service behind it are the environment of a request and are described
    by a record of behaviours, so that the statements quantify over them. *)

From Stdlib Require Import ZArith NArith QArith Ascii String.
From stdpp Require Import gmap strings list.

Open Scope N_scope.

(** ** JavaScript strings *)

Module JsString.

(** A string value is its sequence of UTF-16 code units; [length] counts
    code units, as [String.prototype.length] does. *)
Definition t := list N.

(** Source literals are UTF-8 text; [decodeUtf8] recovers the code
    points and [utf16] the code units the engine stores. *)
Fixpoint decodeUtf8 (bs : list N) : list N :=
  match bs with
  | [] => []
  | b0 :: r0 =>
    if b0 <? 128 then b0 :: decodeUtf8 r0
    else match r0 with
      | [] => [65533]
      | b1 :: r1 =>
        if b0 <? 224 then ((b0 mod 32) * 64 + b1 mod 64) :: decodeUtf8 r1
        else match r1 with
          | [] => [65533]
          | b2 :: r2 =>
            if b0 <? 240
            then ((b0 mod 16) * 4096 + (b1 mod 64) * 64 + b2 mod 64)
                   :: decodeUtf8 r2
            else match r2 with
              | [] => [65533]
              | b3 :: r3 =>
                ((b0 mod 8) * 262144 + (b1 mod 64) * 4096
                 + (b2 mod 64) * 64 + b3 mod 64) :: decodeUtf8 r3
              end
          end
      end
  end.

Definition utf16 (cp : N) : list N :=
  if cp <? 65536 then [cp]
  else [55296 + (cp - 65536) / 1024; 56320 + (cp - 65536) mod 1024].

Definition lit (s : string) : t :=
  decodeUtf8 (N_of_ascii <$> list_ascii_of_string s) ≫= utf16.

(** WhiteSpace and LineTerminator code points of ECMA-262, the set that
    [String.prototype.trim] strips and [parseInt] skips. *)
Definition isWhiteSpace (c : N) : bool :=
  (c =? 9) || (c =? 10) || (c =? 11) || (c =? 12) || (c =? 13)
  || (c =? 32) || (c =? 160) || (c =? 5760)
  || ((8192 <=? c) && (c <=? 8202))
  || (c =? 8232) || (c =? 8233) || (c =? 8239) || (c =? 8287)
  || (c =? 12288) || (c =? 65279).

Fixpoint trimStart (s : t) : t :=
  match s with
  | c :: s' => if isWhiteSpace c then trimStart s' else s
  | [] => []
  end.

Definition trimEnd (s : t) : t := rev (trimStart (rev s)).

Definition trim (s : t) : t := trimEnd (trimStart s).

Definition len (s : t) : N := N.of_nat (length s).

Fixpoint startsWith (s p : t) : bool :=
  match p, s with
  | [], _ => true
  | _ :: _, [] => false
  | c :: p', d :: s' => (c =? d) && startsWith s' p'
  end.

(** [String.prototype.includes]: the needle occurs at some position. *)
Fixpoint includes (s needle : t) : bool :=
  startsWith s needle
  || match s with
     | [] => false
     | _ :: s' => includes s' needle
     end.

Fixpoint eqb (a b : t) : bool :=
  match a, b with
  | [], [] => true
  | c :: a', d :: b' => (c =? d) && eqb a' b'
  | _, _ => false
  end.

End JsString.

Abbreviation jsstring := JsString.t.
Abbreviation js := JsString.lit.

(** ** JavaScript values *)

(** The values a parsed JSON body is made of, plus [undefined] for an
    absent property.  Numbers are kept as integers: the handler only ever
    asks a number for its type or its truthiness. *)
#[warnings="-register-all"]
Inductive JsValue : Type :=
| JUndefined
| JNull
| JBool (b : bool)
| JNum (n : Z)
| JStr (s : jsstring)
| JArr (items : list JsValue)
| JObj (props : list (string * JsValue)).

(** A Number where the handler computes with one: [NaN], a Number that
    holds the integer [z], or an infinity. *)
Inductive Number := NaN | Int (z : Z) | Infinity (negative : bool).

Inductive JsType := TUndefined | TObject | TBoolean | TNumber | TString.

Definition typeOf (v : JsValue) : JsType :=
  match v with
  | JUndefined => TUndefined
  | JNull | JArr _ | JObj _ => TObject
  | JBool _ => TBoolean
  | JNum _ => TNumber
  | JStr _ => TString
  end.

Definition isStringType (ty : JsType) : bool :=
  match ty with TString => true | _ => false end.

(** ToBoolean. *)
Definition truthy (v : JsValue) : bool :=
  match v with
  | JUndefined | JNull => false
  | JBool b => b
  | JNum n => negb (n =? 0)%Z
  | JStr s => negb (JsString.len s =? 0)
  | JArr _ | JObj _ => true
  end.

(** Own-property lookup in an object literal; an absent key reads as
    [undefined]. *)
Fixpoint getField (k : string) (props : list (string * JsValue)) : JsValue :=
  match props with
  | [] => JUndefined
  | (k', v) :: rest => if String.eqb k k' then v else getField k rest
  end.

(** [v.k] for a value that is neither [null] nor [undefined]: primitives
    and arrays have no [role] or [content] property. *)
Definition getProp (k : string) (v : JsValue) : JsValue :=
  match v with
  | JObj props => getField k props
  | _ => JUndefined
  end.

(** [JSON.stringify] drops the properties whose value is [undefined]. *)
Fixpoint stringifyProps (props : list (string * JsValue))
  : list (string * JsValue) :=
  match props with
  | [] => []
  | (_, JUndefined) :: rest => stringifyProps rest
  | kv :: rest => kv :: stringifyProps rest
  end.

(** ** Built-ins the handler calls *)

Module Builtins.

(** Value of a code unit as a digit, letters counting from ten. *)
Definition digitValue (c : N) : option N :=
  if (48 <=? c) && (c <=? 57) then Some (c - 48)
  else if (97 <=? c) && (c <=? 122) then Some (c - 87)
  else if (65 <=? c) && (c <=? 90) then Some (c - 55)
  else None.

(** The longest prefix of radix-[R] digits, as a number; [acc] is [None]
    until a first digit has been read. *)
Fixpoint readDigits (R : N) (acc : option N) (s : jsstring) : option N :=
  match s with
  | [] => acc
  | c :: s' =>
    match digitValue c with
    | Some d =>
      if d <? R then readDigits R (Some (default 0 acc * R + d)) s' else acc
    | None => acc
    end
  end.

Definition stripSign (s : jsstring) : bool * jsstring :=
  match s with
  | 45 :: s' => (true, s')
  | 43 :: s' => (false, s')
  | _ => (false, s)
  end.

Definition stripRadixPrefix (s : jsstring) : N * jsstring :=
  match s with
  | 48 :: 120 :: s' => (16, s')
  | 48 :: 88 :: s' => (16, s')
  | _ => (10, s)
  end.

Definition maxExact : N := 2 ^ 53.

(** The Number for a natural number [n] (ECMA-262 6.1.6.1): [n] itself
    up to 2^53; past that the nearest multiple of [2^e] with a
    significand of 53 bits, where [e] is the length of [n] in bits less
    53, and of two that are as near the one with the even significand.
    [None] when that is 2^1024 or more: the Number is then an
    infinity. *)
Definition roundInteger (n : N) : option N :=
  if n <=? maxExact then Some n
  else
    let e := N.log2 n - 52 in
    let m := N.shiftr n e in
    let r := n - N.shiftl m e in
    let half := N.shiftl 1 (e - 1) in
    let m' := if (half <? r) || ((r =? half) && N.odd m) then m + 1 else m in
    let v := N.shiftl m' e in
    if v <? 2 ^ 1024 then Some v else None.

(** [parseInt(string)] with no radix argument (ECMA-262 19.2.5): skip
    leading white space, read a sign, switch to radix 16 after [0x],
    read the digits, and return the Number for the integer read.  (For
    more than 20 significant decimal digits the standard lets an engine
    round from the first 20; V8, which runs the server, rounds from all
    of them, as here.) *)
Definition parseInt (input : jsstring) : Number :=
  let (negative, s1) := stripSign (JsString.trimStart input) in
  let (R, s2) := stripRadixPrefix s1 in
  match readDigits R None s2 with
  | None => NaN
  | Some n =>
    match roundInteger n with
    | Some v => Int (if negative then - Z.of_N v else Z.of_N v)%Z
    | None => Infinity negative
    end
  end.

(** ToString of what [process.env.X] evaluates to. *)
Definition envToString (v : option jsstring) : jsstring :=
  default (js "undefined") v.

(** [n || fallback] for a Number [n]: [NaN] and zero are falsy, an
    infinity is not. *)
Definition numberOr (n : Number) (fallback : Z) : Number :=
  match n with
  | NaN => Int fallback
  | Int z => if (z =? 0)%Z then Int fallback else Int z
  | Infinity negative => Infinity negative
  end.

(** [s || fallback] for [s] a string or [undefined]. *)
Definition stringOr (s : option jsstring) (fallback : jsstring) : jsstring :=
  match s with
  | Some (c :: r) => c :: r
  | Some [] | None => fallback
  end.

(** *** ToNumber of a string *)

Definition isDecimalDigit (c : N) : bool := (48 <=? c) && (c <=? 57).

(** The longest prefix of decimal digits, as digit values, and what
    follows it. *)
Fixpoint readDecimalDigits (s : jsstring) : list N * jsstring :=
  match s with
  | [] => ([], [])
  | c :: s' =>
    if isDecimalDigit c
    then let (ds, rest) := readDecimalDigits s' in ((c - 48) :: ds, rest)
    else ([], s)
  end.

Definition valueOfDigits (ds : list N) : N :=
  foldl (λ acc d, acc * 10 + d) 0 ds.

(** A string made of radix-[R] digits only, as a number. *)
Fixpoint wholeDigits (R : N) (acc : N) (s : jsstring) : option N :=
  match s with
  | [] => Some acc
  | c :: s' =>
    match digitValue c with
    | Some d => if d <? R then wholeDigits R (acc * R + d) s' else None
    | None => None
    end
  end.

(** What a string denotes as a numeric literal: nothing, an infinity, or
    the number [mantissa * 10 ^ exponent] with its sign. *)
Inductive StringValue :=
| NotNumeric
| Infinite (negative : bool)
| Decimal (negative : bool) (mantissa : N) (exponent : Z).

(** [0x], [0o] or [0b] followed by at least one digit of that radix and
    nothing else. *)
Definition nonDecimalInteger (R : N) (digits : jsstring) : StringValue :=
  match digits with
  | [] => NotNumeric
  | _ :: _ =>
    match wholeDigits R 0 digits with
    | Some n => Decimal false n 0
    | None => NotNumeric
    end
  end.

(** The exponent part, when the literal ends with it: [e] or [E], a
    sign or none, at least one digit. *)
Definition exponentPart (s : jsstring) : option Z :=
  match s with
  | [] => Some 0%Z
  | c :: s1 =>
    if (c =? 101) || (c =? 69)
    then
      let (negative, s2) := stripSign s1 in
      match readDecimalDigits s2 with
      | (d :: ds, []) =>
        let x := Z.of_N (valueOfDigits (d :: ds)) in
        Some (if negative then - x else x)%Z
      | _ => None
      end
    else None
  end.

(** [Infinity], or digits with a fraction and an exponent, of which
    either the digits before the point or those after it may be left
    out, not both. *)
Definition unsignedDecimal (negative : bool) (s : jsstring) : StringValue :=
  if JsString.eqb s (js "Infinity") then Infinite negative
  else
    let (whole, s1) := readDecimalDigits s in
    let (fraction, s2) :=
      match s1 with
      | 46 :: s1' => readDecimalDigits s1'
      | _ => ([], s1)
      end in
    match whole ++ fraction with
    | [] => NotNumeric
    | d :: ds =>
      match exponentPart s2 with
      | Some x =>
        Decimal negative (valueOfDigits (d :: ds))
          (x - Z.of_nat (length fraction))
      | None => NotNumeric
      end
    end.

(** StringToNumber before rounding (ECMA-262 7.1.4.1.1): white space
    around the literal is dropped and an empty literal is zero; only a
    decimal literal takes a sign. *)
Definition stringValue (input : jsstring) : StringValue :=
  match JsString.trim input with
  | [] => Decimal false 0 0
  | 48 :: 120 :: digits | 48 :: 88 :: digits => nonDecimalInteger 16 digits
  | 48 :: 111 :: digits | 48 :: 79 :: digits => nonDecimalInteger 8 digits
  | 48 :: 98 :: digits | 48 :: 66 :: digits => nonDecimalInteger 2 digits
  | s => let (negative, s') := stripSign s in unsignedDecimal negative s'
  end.

(** The integer part of the Number nearest to the fraction [a / b], of
    two that are as near the one with the even significand; [None] when
    that Number is an infinity.  Below one half the integer part is 0;
    from there on the Number is [m * 2 ^ e] with [m] of 53 bits. *)
Definition floorOfNearest (a b : N) : option N :=
  if 2 * a <? b then Some 0
  else
    let magnitude := if a <? b then (-1)%Z else Z.of_N (N.log2 (a / b)) in
    let e := (magnitude - 52)%Z in
    let num := if (0 <=? e)%Z then a else a * 2 ^ Z.to_N (- e) in
    let den := if (0 <=? e)%Z then b * 2 ^ Z.to_N e else b in
    let m := num / den in
    let r := num mod den in
    let m' := if (den <? 2 * r) || ((2 * r =? den) && N.odd m)
              then m + 1 else m in
    if (0 <=? e)%Z
    then
      let v := m' * 2 ^ Z.to_N e in
      if v <? 2 ^ 1024 then Some v else None
    else Some (m' / 2 ^ Z.to_N (- e)).

(** For [count > max] with [max] a string, which the comparison turns
    into a Number: the greatest count that is not above it.  No count is
    above [NaN] or the positive infinity; every count from 1 on is above
    zero and above a negative number.  (Literals of more than 20
    significant digits are rounded from all their digits, as V8
    does.) *)
Definition greatestNotAbove (max : jsstring) : option N :=
  match stringValue max with
  | NotNumeric | Infinite false => None
  | Infinite true | Decimal true _ _ => Some 0
  | Decimal false mantissa exponent =>
    if (0 <=? exponent)%Z
    then floorOfNearest (mantissa * 10 ^ Z.to_N exponent) 1
    else floorOfNearest mantissa (10 ^ Z.to_N (- exponent))
  end.

(** *** [Date.prototype.toISOString] *)

Definition msPerDay : Z := 86400000.

(** Proleptic Gregorian date of a day number counted from 1970-01-01. *)
Definition civilFromDays (days : Z) : Z * Z * Z :=
  (let z := days + 719468 in
   let era := z / 146097 in
   let doe := z - era * 146097 in
   let yoe := (doe - doe / 1460 + doe / 36524 - doe / 146096) / 365 in
   let doy := doe - (365 * yoe + yoe / 4 - yoe / 100) in
   let mp := (5 * doy + 2) / 153 in
   let d := doy - (153 * mp + 2) / 5 + 1 in
   let m := if mp <? 10 then mp + 3 else mp - 9 in
   ((if m <=? 2 then yoe + era * 400 + 1 else yoe + era * 400), m, d))%Z.

(** The decimal digit of weight [10^k] in [n], as a code unit. *)
Definition digit (n : Z) (k : Z) : N := 48 + Z.to_N ((n / 10 ^ k) mod 10)%Z.

Definition pad2 (n : Z) : jsstring := [digit n 1; digit n 0].
Definition pad3 (n : Z) : jsstring := [digit n 2; digit n 1; digit n 0].
Definition pad4 (n : Z) : jsstring :=
  [digit n 3; digit n 2; digit n 1; digit n 0].
Definition pad6 (n : Z) : jsstring :=
  [digit n 5; digit n 4; digit n 3; digit n 2; digit n 1; digit n 0].

(** Years 0 to 9999 print as four digits, other years as a sign and six. *)
Definition isoYear (y : Z) : jsstring :=
  if ((0 <=? y) && (y <=? 9999))%Z then pad4 y
  else (if (y <? 0)%Z then 45 else 43) :: pad6 (Z.abs y).

(** [new Date(tv).toISOString()] for a time value [tv] in milliseconds
    since the epoch, as the system clock gives it. *)
Definition toISOString (tv : N) : jsstring :=
  let t := Z.of_N tv in
  let '(y, m, d) := civilFromDays (t / msPerDay)%Z in
  let ms := (t mod msPerDay)%Z in
  isoYear y ++ [45] ++ pad2 m ++ [45] ++ pad2 d ++ [84]
    ++ pad2 (ms / 3600000)%Z ++ [58] ++ pad2 (ms / 60000 mod 60)%Z ++ [58]
    ++ pad2 (ms / 1000 mod 60)%Z ++ [46] ++ pad3 (ms mod 1000)%Z ++ [90].

End Builtins.

(** ** The Gemini SDK, as the handler sees it *)

(** A thrown [Error] is observed only through its [message]. *)
Record JsError := { message : jsstring }.

Record UsageMetadata := { totalTokenCount : option Z }.

(** [text] is what calling [response.text()] does: return the text, or
    throw when the candidate was blocked. *)
Record GenerateContentResponse := {
  text : JsError + jsstring;
  usageMetadata : option UsageMetadata
}.

(** The value [sendMessage] fulfils with; [response] is [None] when the
    property is missing or falsy. *)
Record GenerateContentResult := { response : option GenerateContentResponse }.

(** How a promise ends.  A fulfilment value of [None] is [undefined]. *)
Inductive Settlement :=
| Fulfilled (result : option GenerateContentResult)
| Rejected (error : JsError).

Record Part := { partText : JsValue }.
Record Content := { role : JsValue; parts : list Part }.

Record GenerationConfig := {
  maxOutputTokens : Number;
  temperature : Q;
  topP : Q;
  topK : Z
}.

Record SafetySetting := { category : jsstring; threshold : jsstring }.

Record ModelParams := { model : jsstring; systemInstruction : jsstring }.

Record StartChatParams := {
  history : list Content;
  generationConfig : GenerationConfig;
  safetySettings : list SafetySetting
}.

(** The behaviour of the SDK and of the service behind it during one
    request: whether [startChat] rejects the history, when and how the
    upstream call would end if left alone ([None]: never), and whether
    the call honours the abort signal, in which case [sendMessage] rejects
    with the given error as soon as the signal fires. *)
Record Sdk := {
  startChatThrows : StartChatParams -> option JsError;
  completion : option (N * Settlement);
  onAbort : option JsError
}.

(** ** HTTP responses and the observable trace *)

Record Response := { status : N; body : list (string * JsValue) }.

Inductive Callback := AbortCall | RejectTimeout.

Record Timer := { handle : nat; due : N; callback : Callback }.

Inductive Event :=
| EGetModel (p : ModelParams)
| EStartChat (p : StartChatParams)
| ESendMessage (msg : jsstring)
| ESetTimeout (h : nat) (delay : N)
| EClearTimeout (h : nat)
| ETimerFired (h : nat)
| EAbort
| ELog (error : JsError)
| ERespond (r : Response).

(** What the suspended handler needs when it resumes after [await]. *)
Record Frame := {
  frameEnv : gmap string jsstring;
  frameEpoch : N;
  frameModel : jsstring;
  frameTimeout : nat
}.

(** The event loop while one request is being served.  [clock] counts
    milliseconds since the handler was entered; [timers] are the armed
    timers in creation order; [inflight] is the pending upstream
    completion; [sendP] and [raceP] are the states of the [sendMessage]
    promise and of [Promise.race] ([None]: pending); [awaiting] holds the
    handler while it is suspended; [trace] records every effect with the
    clock at which it happened. *)
Record Loop := {
  clock : N;
  timers : list Timer;
  inflight : option (N * Settlement);
  abortRejects : option JsError;
  aborted : bool;
  sendP : option Settlement;
  raceP : option Settlement;
  awaiting : option Frame;
  trace : list (N * Event)
}.

(** ** The [/api/chat] handler *)

Module Handler.

Abbreviation includes := JsString.includes.

(** [!message || typeof message !== "string" || message.trim().length < 5];
    the last operand is only reached by a string. *)
Definition invalidMessage (message : JsValue) : bool :=
  negb (truthy message)
  || negb (isStringType (typeOf message))
  || match message with
     | JStr s => JsString.len (JsString.trim s) <? 5
     | _ => false
     end.

Definition invalidMessageResponse : Response :=
  {| status := 400;
     body := stringifyProps
       [("success"%string, JBool false);
        ("error"%string,
         JStr (js "Mensagem inválida. Forneça um texto com pelo menos 5 caracteres."))] |}.

(** The template literal passed as [systemInstruction]; a double quote
    of the template is written as its code unit, 34. *)
Definition instructionHead : jsstring :=
    (js "
                Você é um especialista em hardware chamado HardIA. Siga estritamente:
                
                1. Idioma: Português brasileiro
                2. Formato: Use Markdown para estruturar a resposta.
                   - **Título de Compatibilidade:** Comece com "
      ++ [34] ++ js "✅ Compatível"
      ++ [34] ++ js " ou "
      ++ [34] ++ js "❌ Incompatível"
      ++ [34] ++ js ".
                   - **Tabela Comparativa:** Crie uma tabela Markdown comparando "
      ++ [34] ++ js "Requisito Mínimo"
      ++ [34] ++ js " com "
      ++ [34] ++ js "Seu Hardware"
      ++ [34] ++ js ".
                   - **Análise Detalhada:** Explique os pontos fortes e fracos da sua configuração.
                   - **Recomendações de Melhorias:** Use uma lista com bullet points para sugerir upgrades ou otimizações (se aplicável).
                   - **Nota:** Finalize com uma nota de 1-10 sobre a compatibilidade geral.
                
                3. Estilo: Técnico, mas acessível. Use emojis para ênfase.
                
                Exemplo de tabela:
                | Componente | Requisito Mínimo | Seu Hardware |
                |---|---|---|
                | CPU | Intel Core i5 | Intel Core i3 |
                
                Dados do usuário para análise: ").

Definition instructionTail : jsstring :=
    js "
            ".

Definition instructionFor (message : jsstring) : jsstring :=
  instructionHead ++ message ++ instructionTail.

(** [process.env.GEMINI_MODEL || "gemini-pro"] *)
Definition modelName (env : gmap string jsstring) : jsstring :=
  Builtins.stringOr (env !! "GEMINI_MODEL"%string) (js "gemini-pro").

(** The element callback of [chatHistory.map]: reading [msg.role] of
    [null] or [undefined] throws a TypeError. *)
Definition toContent (msg : JsValue) : JsError + Content :=
  match msg with
  | JNull =>
    inl {| message := js "Cannot read properties of null (reading 'role')" |}
  | JUndefined =>
    inl {| message :=
             js "Cannot read properties of undefined (reading 'role')" |}
  | _ =>
    inr {| role := getProp "role" msg;
           parts := [ {| partText := getProp "content" msg |} ] |}
  end.

Fixpoint mapContents (items : list JsValue) : JsError + list Content :=
  match items with
  | [] => inr []
  | msg :: rest =>
    match toContent msg with
    | inl e => inl e
    | inr c =>
      match mapContents rest with
      | inl e => inl e
      | inr cs => inr (c :: cs)
      end
    end
  end.

(** [chatHistory.map(...)]: only an array has [map]. *)
Definition mapHistory (chatHistory : JsValue) : JsError + list Content :=
  match chatHistory with
  | JArr items => mapContents items
  | JNull =>
    inl {| message := js "Cannot read properties of null (reading 'map')" |}
  | JUndefined =>
    inl {| message :=
             js "Cannot read properties of undefined (reading 'map')" |}
  | _ => inl {| message := js "chatHistory.map is not a function" |}
  end.

(** [parseInt(process.env.MAX_TOKENS) || 1000] and the fixed sampling
    parameters. *)
Definition buildGenerationConfig (env : gmap string jsstring)
  : GenerationConfig :=
  {| maxOutputTokens :=
       Builtins.numberOr
         (Builtins.parseInt (Builtins.envToString (env !! "MAX_TOKENS"%string)))
         1000;
     temperature := (7 # 10)%Q;
     topP := (9 # 10)%Q;
     topK := 40 |}.

Definition fixedSafetySettings : list SafetySetting :=
  [ {| category := js "HARM_CATEGORY_HARASSMENT";
       threshold := js "BLOCK_NONE" |};
    {| category := js "HARM_CATEGORY_HATE_SPEECH";
       threshold := js "BLOCK_NONE" |} ].

Definition timeoutMs : N := 15000.

Definition timeoutError : JsError :=
  {| message := js "Timeout na resposta da API" |}.

Definition invalidResponseError : JsError :=
  {| message := js "Resposta inválida da API" |}.

(** *** The [catch] block *)

Definition statusCode (error : JsError) : N :=
  if includes (message error) (js "Timeout") then 504
  else if includes (message error) (js "invalid") then 400
  else 500.

Definition errorText (error : JsError) : jsstring :=
  if includes (message error) (js "Timeout")
  then js "Tempo de resposta excedido. Tente novamente."
  else js "Erro ao processar sua solicitação. Por favor, tente novamente.".

(** [process.env.NODE_ENV === "development"] *)
Definition isDevelopment (env : gmap string jsstring) : bool :=
  match env !! "NODE_ENV"%string with
  | Some v => JsString.eqb v (js "development")
  | None => false
  end.

Definition errorResponse (env : gmap string jsstring) (error : JsError)
  : Response :=
  {| status := statusCode error;
     body := stringifyProps
       [("success"%string, JBool false);
        ("error"%string, JStr (errorText error));
        ("details"%string,
         if isDevelopment env then JStr (message error) else JUndefined)] |}.

Definition catchBlock (env : gmap string jsstring) (error : JsError)
  : list Event :=
  [ELog error; ERespond (errorResponse env error)].

(** *** The success response *)

(** [result.response.usageMetadata?.totalTokenCount || "N/A"] *)
Definition tokensUsed (r : GenerateContentResponse) : JsValue :=
  match usageMetadata r with
  | Some u =>
    match totalTokenCount u with
    | Some n => if (n =? 0)%Z then JStr (js "N/A") else JNum n
    | None => JStr (js "N/A")
    end
  | None => JStr (js "N/A")
  end.

Definition successResponse (responseText : jsstring) (now : N)
    (modelName : jsstring) (r : GenerateContentResponse) : Response :=
  {| status := 200;
     body := stringifyProps
       [("success"%string, JBool true);
        ("data"%string, JObj
           [("response"%string, JStr responseText);
            ("timestamp"%string, JStr (Builtins.toISOString now));
            ("model"%string, JStr modelName);
            ("tokensUsed"%string, tokensUsed r)])] |}.

(** The statements after [await Promise.race(...)] when the race
    fulfilled with [result], at wall-clock time [now]. *)
Definition afterRace (fr : Frame) (now : N)
    (result : option GenerateContentResult) : list Event :=
  EClearTimeout (frameTimeout fr) ::
  match result ≫= response with
  | None => catchBlock (frameEnv fr) invalidResponseError
  | Some r =>
    match text r with
    | inl e => catchBlock (frameEnv fr) e
    | inr responseText =>
      [ERespond (successResponse responseText now (frameModel fr) r)]
    end
  end.

End Handler.

(** ** The event loop *)

Module EventLoop.

(** Append effects to the trace at the current clock. *)
Definition stamp (es : list Event) (l : Loop) : Loop :=
  {| clock := clock l; timers := timers l; inflight := inflight l;
     abortRejects := abortRejects l; aborted := aborted l;
     sendP := sendP l; raceP := raceP l; awaiting := awaiting l;
     trace := trace l ++ ((λ e, (clock l, e)) <$> es) |}.

(** [clearTimeout(h)]: a timer that has fired is no longer in the list. *)
Fixpoint clearTimer (h : nat) (ts : list Timer) : list Timer :=
  match ts with
  | [] => []
  | t :: rest =>
    if Nat.eqb (handle t) h then clearTimer h rest
    else t :: clearTimer h rest
  end.

(** The timer that fires next: the earliest due, and among timers due at
    the same time the one created first. *)
Fixpoint nextTimer (ts : list Timer) : option Timer :=
  match ts with
  | [] => None
  | t :: rest =>
    match nextTimer rest with
    | Some u => if due u <? due t then Some u else Some t
    | None => Some t
    end
  end.

(** [Promise.race] settles as the first of its inputs to settle; the
    timer promise reaches it through [RejectTimeout] below. *)
Definition adopt (l : Loop) : Loop :=
  match raceP l, sendP l with
  | None, Some s =>
    {| clock := clock l; timers := timers l; inflight := inflight l;
       abortRejects := abortRejects l; aborted := aborted l;
       sendP := sendP l; raceP := Some s; awaiting := awaiting l;
       trace := trace l |}
  | _, _ => l
  end.

(** Once the race has settled the handler resumes after its [await]:
    with the value, it clears [timeout] and goes on; with the error, it
    jumps to the [catch] block. *)
Definition resume (l : Loop) : Loop :=
  match raceP l, awaiting l with
  | Some (Fulfilled result), Some fr =>
    stamp (Handler.afterRace fr (frameEpoch fr + clock l) result)
      {| clock := clock l;
         timers := clearTimer (frameTimeout fr) (timers l);
         inflight := inflight l;
         abortRejects := abortRejects l; aborted := aborted l;
         sendP := sendP l; raceP := raceP l; awaiting := None;
         trace := trace l |}
  | Some (Rejected error), Some fr =>
    stamp (Handler.catchBlock (frameEnv fr) error)
      {| clock := clock l; timers := timers l; inflight := inflight l;
         abortRejects := abortRejects l; aborted := aborted l;
         sendP := sendP l; raceP := raceP l; awaiting := None;
         trace := trace l |}
  | _, _ => l
  end.

(** The promise reactions that run after every callback, before the
    next timer or completion is dispatched. *)
Definition reactions (l : Loop) : Loop := resume (adopt l).

(** [controller.abort()]: the first call fires the signal, and a call
    that honours it rejects [sendMessage] and drops the request. *)
Definition abort (l : Loop) : Loop :=
  let l1 := stamp [EAbort] l in
  if aborted l1 then l1
  else
    match abortRejects l1, sendP l1 with
    | Some e, None =>
      {| clock := clock l1; timers := timers l1; inflight := None;
         abortRejects := abortRejects l1; aborted := true;
         sendP := Some (Rejected e); raceP := raceP l1;
         awaiting := awaiting l1; trace := trace l1 |}
    | _, _ =>
      {| clock := clock l1; timers := timers l1; inflight := inflight l1;
         abortRejects := abortRejects l1; aborted := true;
         sendP := sendP l1; raceP := raceP l1;
         awaiting := awaiting l1; trace := trace l1 |}
    end.

(** [reject(new Error("Timeout na resposta da API"))] on the second
    input of the race. *)
Definition rejectTimeout (l : Loop) : Loop :=
  match raceP l with
  | Some _ => l
  | None =>
    {| clock := clock l; timers := timers l; inflight := inflight l;
       abortRejects := abortRejects l; aborted := aborted l;
       sendP := sendP l; raceP := Some (Rejected Handler.timeoutError);
       awaiting := awaiting l; trace := trace l |}
  end.

Definition invoke (cb : Callback) (l : Loop) : Loop :=
  match cb with
  | AbortCall => abort l
  | RejectTimeout => rejectTimeout l
  end.

(** Run the callback of timer [t], then the promise reactions. *)
Definition fire (t : Timer) (l : Loop) : Loop :=
  reactions (invoke (callback t) (stamp [ETimerFired (handle t)]
    {| clock := N.max (clock l) (due t);
       timers := clearTimer (handle t) (timers l);
       inflight := inflight l;
       abortRejects := abortRejects l; aborted := aborted l;
       sendP := sendP l; raceP := raceP l; awaiting := awaiting l;
       trace := trace l |})).

(** The upstream call ends at [c] with [s]: [sendMessage] settles. *)
Definition deliver (c : N) (s : Settlement) (l : Loop) : Loop :=
  reactions
    {| clock := N.max (clock l) c; timers := timers l; inflight := None;
       abortRejects := abortRejects l; aborted := aborted l;
       sendP := match sendP l with Some s0 => Some s0 | None => Some s end;
       raceP := raceP l; awaiting := awaiting l; trace := trace l |}.

(** One turn of the loop.  Due timers run before a completion stamped
    with the same millisecond (the timers phase precedes polling);
    [None] when nothing is left to do. *)
Definition step (l : Loop) : option Loop :=
  match nextTimer (timers l), inflight l with
  | Some t, Some (c, s) =>
    if due t <=? c then Some (fire t l) else Some (deliver c s l)
  | Some t, None => Some (fire t l)
  | None, Some (c, s) => Some (deliver c s l)
  | None, None => None
  end.

Fixpoint run (fuel : nat) (l : Loop) : Loop :=
  match fuel with
  | O => l
  | S fuel' =>
    match step l with
    | Some l' => run fuel' l'
    | None => l
    end
  end.

(** Every turn consumes a timer or the completion and creates none. *)
Definition pendingTasks (l : Loop) : nat :=
  length (timers l) + match inflight l with Some _ => 1 | None => 0 end.

Definition drain (l : Loop) : Loop := run (pendingTasks l) l.

End EventLoop.

Module Chat.

Import Handler.

Definition idle : Loop :=
  {| clock := 0; timers := []; inflight := None; abortRejects := None;
     aborted := false; sendP := None; raceP := None; awaiting := None;
     trace := [] |}.

Definition getModel (env : gmap string jsstring) (message : jsstring)
  : Event :=
  EGetModel {| model := modelName env;
               systemInstruction := instructionFor message |}.

Definition frameOf (env : gmap string jsstring) (epoch : N) : Frame :=
  {| frameEnv := env; frameEpoch := epoch;
     frameModel := modelName env; frameTimeout := 1 |}.

(** The effects of the handler up to its [await]. *)
Definition prefix (env : gmap string jsstring) (message : jsstring)
    (params : StartChatParams) : list (N * Event) :=
  (λ e, (0, e)) <$>
    [getModel env message; EStartChat params; ESetTimeout 1 timeoutMs;
     ESendMessage message; ESetTimeout 2 timeoutMs].

(** The loop at the [await]: [timeout] (handle 1) calls
    [controller.abort()] after 15 s, [sendMessage] is in flight, and the
    anonymous timer of the race (handle 2) rejects after 15 s. *)
Definition armed (env : gmap string jsstring) (sdk : Sdk) (epoch : N)
    (message : jsstring) (params : StartChatParams) : Loop :=
  {| clock := 0;
     timers :=
       [ {| handle := 1; due := timeoutMs; callback := AbortCall |};
         {| handle := 2; due := timeoutMs; callback := RejectTimeout |} ];
     inflight := completion sdk;
     abortRejects := onAbort sdk;
     aborted := false;
     sendP := None;
     raceP := None;
     awaiting := Some (frameOf env epoch);
     trace := prefix env message params |}.

Definition sessionParams (env : gmap string jsstring)
    (contents : list Content) : StartChatParams :=
  {| history := contents;
     generationConfig := buildGenerationConfig env;
     safetySettings := fixedSafetySettings |}.

(** [const { message, chatHistory = [] } = req.body] *)
Definition messageOf (reqBody : list (string * JsValue)) : JsValue :=
  getField "message" reqBody.

Definition chatHistoryOf (reqBody : list (string * JsValue)) : JsValue :=
  match getField "chatHistory" reqBody with
  | JUndefined => JArr []
  | v => v
  end.

(** The handler from its entry to its first suspension: it either has
    responded (validation, or an exception caught before the call), or
    has armed both timers, issued [sendMessage] and awaits the race.
    [epoch] is the wall clock at entry.  A message that passes the
    validation is a string, so the last branch is never taken. *)
Definition enter (env : gmap string jsstring) (sdk : Sdk) (epoch : N)
    (reqBody : list (string * JsValue)) : Loop :=
  let message := messageOf reqBody in
  let chatHistory := chatHistoryOf reqBody in
  if invalidMessage message
  then EventLoop.stamp [ERespond invalidMessageResponse] idle
  else
    match message with
    | JStr text =>
      match mapHistory chatHistory with
      | inl e =>
        EventLoop.stamp (getModel env text :: catchBlock env e) idle
      | inr contents =>
        let params := sessionParams env contents in
        match startChatThrows sdk params with
        | Some e =>
          EventLoop.stamp
            (getModel env text :: EStartChat params :: catchBlock env e)
            idle
        | None => armed env sdk epoch text params
        end
      end
    | _ => idle
    end.

(** The handler run until the loop has nothing left for this request. *)
Definition post (env : gmap string jsstring) (sdk : Sdk) (epoch : N)
    (reqBody : list (string * JsValue)) : Loop :=
  EventLoop.drain (enter env sdk epoch reqBody).

(** *** Observations on a trace *)

Definition responses (l : Loop) : list (N * Response) :=
  omap (λ te, match te.2 with ERespond r => Some (te.1, r) | _ => None end)
    (trace l).

Definition caught (l : Loop) : list JsError :=
  omap (λ te, match te.2 with ELog e => Some e | _ => None end) (trace l).

Definition aborts (l : Loop) : list N :=
  omap (λ te, match te.2 with EAbort => Some te.1 | _ => None end) (trace l).

Definition upstreamCalls (l : Loop) : list (N * jsstring) :=
  omap (λ te, match te.2 with ESendMessage m => Some (te.1, m) | _ => None end)
    (trace l).

Definition fired (l : Loop) : list (N * nat) :=
  omap (λ te, match te.2 with ETimerFired h => Some (te.1, h) | _ => None end)
    (trace l).

Definition cleared (l : Loop) : list (N * nat) :=
  omap (λ te, match te.2 with EClearTimeout h => Some (te.1, h) | _ => None end)
    (trace l).

Definition sessions (l : Loop) : list StartChatParams :=
  omap (λ te, match te.2 with EStartChat p => Some p | _ => None end)
    (trace l).

End Chat.

(** ** The rate limiter *)

Module Limiter.

(** Modelled from the spec: the middleware returned by [rateLimit] comes
    from the [express-rate-limit] package, whose code is not in the
    repository.  The spec describes its state as a window per client
    identity with attributes count and window start, created on the
    first request of a client and rotated after a fixed window. *)
Record Window := { count : N; windowStart : N }.

(** [windowMs: 60 * 60 * 1000] *)
Definition windowMs : N := 60 * 60 * 1000.

(** Modelled from the spec: the window of [client] once a request
    arriving at [now] has been counted. *)
Definition hit (store : gmap string Window) (client : string) (now : N)
  : Window :=
  match store !! client with
  | Some w =>
    if now <? windowStart w + windowMs
    then {| count := count w + 1; windowStart := windowStart w |}
    else {| count := 1; windowStart := now |}
  | None => {| count := 1; windowStart := now |}
  end.

(** Modelled from the spec: a request is refused when the count of its
    window exceeds the quota; a quota that is not a number is exceeded
    by no count. *)
Definition exceeded (max : option N) (w : Window) : bool :=
  match max with
  | Some n => n <? count w
  | None => false
  end.

(** The [message] option, sent with the status of a refused request. *)
Definition limitResponse : Response :=
  {| status := 429;
     body := stringifyProps
       [("success"%string, JBool false);
        ("error"%string,
         JStr (js "Limite de requisições excedido. Tente novamente mais tarde."))] |}.

End Limiter.

(** ** The server: limiter, then handler *)

Module Server.

Import Limiter.

(** [process.env.API_LIMIT || 100] *)
Definition API_REQUEST_LIMIT (env : gmap string jsstring) : JsValue :=
  match env !! "API_LIMIT"%string with
  | Some (c :: r) => JStr (c :: r)
  | Some [] | None => JNum 100
  end.

(** The quota that [max] stands for: the greatest count that is not
    refused.  Modelled from the spec: the limiter refuses a request when
    [count > max]; the default is a Number, but [API_LIMIT] reaches the
    limiter as the string it is, which that comparison turns into a
    Number. *)
Definition maxRequests (env : gmap string jsstring) : option N :=
  match API_REQUEST_LIMIT env with
  | JNum n => Some (Z.to_N n)
  | JStr s => Builtins.greatestNotAbove s
  | _ => None
  end.

(** One request: who sends it, when it arrives, its parsed body, and
    how the SDK behaves while it is served. *)
Record Request := {
  client : string;
  arrival : N;
  reqBody : list (string * JsValue);
  upstream : Sdk
}.

(** [app.post("/api/chat", limiter, async (req, res) => ...)]: the
    limiter counts the request and either answers it or passes it on. *)
Definition chatRoute (env : gmap string jsstring)
    (store : gmap string Window) (r : Request)
  : gmap string Window * Loop :=
  let w := hit store (client r) (arrival r) in
  (<[client r := w]> store,
   if exceeded (maxRequests env) w
   then EventLoop.stamp [ERespond limitResponse] Chat.idle
   else Chat.post env (upstream r) (arrival r) (reqBody r)).

(** Requests are admitted one at a time, in arrival order. *)
Fixpoint serveAll (env : gmap string jsstring)
    (store : gmap string Window) (reqs : list Request)
  : gmap string Window * list Loop :=
  match reqs with
  | [] => (store, [])
  | r :: rest =>
    let (store1, l) := chatRoute env store r in
    let (store2, ls) := serveAll env store1 rest in
    (store2, l :: ls)
  end.

End Server.

(** * Vocabulary of the statements *)

(** ** The handler as a decision *)

Section Decision.

Import Handler Chat.

(** Which branch of the handler answers a request, and when (in
    milliseconds after entry). *)
Inductive Verdict :=
| VInvalid
| VCaught (at_ : N) (error : JsError)
| VSuccess (at_ : N) (responseText : jsstring) (r : GenerateContentResponse).

Definition settled (s : Settlement) (d : N) : Verdict :=
  match s with
  | Rejected e => VCaught d e
  | Fulfilled result =>
    match result ≫= response with
    | None => VCaught d invalidResponseError
    | Some r =>
      match text r with
      | inl e => VCaught d e
      | inr responseText => VSuccess d responseText r
      end
    end
  end.

Definition deadline (sdk : Sdk) : Verdict :=
  VCaught timeoutMs (default timeoutError (onAbort sdk)).

Definition raced (sdk : Sdk) : Verdict :=
  match completion sdk with
  | Some (d, s) => if d <? timeoutMs then settled s d else deadline sdk
  | None => deadline sdk
  end.

Definition verdict (env : gmap string jsstring) (sdk : Sdk)
    (payload : list (string * JsValue)) : Verdict :=
  if invalidMessage (messageOf payload) then VInvalid
  else
    match mapHistory (chatHistoryOf payload) with
    | inl e => VCaught 0 e
    | inr contents =>
      match startChatThrows sdk (sessionParams env contents) with
      | Some e => VCaught 0 e
      | None => raced sdk
      end
    end.

Definition answer (env : gmap string jsstring) (epoch : N) (v : Verdict)
  : N * Response :=
  match v with
  | VInvalid => (0, invalidMessageResponse)
  | VCaught t e => (t, errorResponse env e)
  | VSuccess t responseText r =>
    (t, successResponse responseText (epoch + t) (modelName env) r)
  end.

Definition logged (v : Verdict) : list JsError :=
  match v with
  | VCaught _ e => [e]
  | _ => []
  end.

(** A request reaches [sendMessage] when its message is valid, its
    history maps to [contents] and [startChat] accepts the session. *)
Definition accepted (env : gmap string jsstring) (sdk : Sdk)
    (payload : list (string * JsValue)) (message : jsstring)
    (contents : list Content) : Prop :=
  messageOf payload = JStr message
  /\ invalidMessage (JStr message) = false
  /\ mapHistory (chatHistoryOf payload) = inr contents
  /\ startChatThrows sdk (sessionParams env contents) = None.

(** The call is still pending when the timers are due. *)
Definition pendingAtDeadline (sdk : Sdk) : Prop :=
  match completion sdk with
  | Some (d, _) => timeoutMs <= d
  | None => True
  end.

End Decision.

(** ** The server's answers *)

Section Answers.

Import Handler Chat Limiter Server.

(** The loop of a request that the limiter answered itself. *)
Definition refused : Loop :=
  EventLoop.stamp [ERespond limitResponse] idle.




End Answers.

(** ** The shape of a timestamp *)

Section Timestamp.

Inductive Shape := Digit | Sign | Unit (c : N).

Definition fits (p : Shape) (c : N) : bool :=
  match p with
  | Digit => (48 <=? c) && (c <=? 57)
  | Sign => (c =? 43) || (c =? 45)
  | Unit u => c =? u
  end.

Fixpoint matches (ps : list Shape) (s : jsstring) : bool :=
  match ps, s with
  | [], [] => true
  | p :: ps', c :: s' => fits p c && matches ps' s'
  | _, _ => false
  end.

(** [-MM-DDTHH:mm:ss.sssZ] *)
Definition afterYear : list Shape :=
  [Unit 45; Digit; Digit; Unit 45; Digit; Digit; Unit 84;
   Digit; Digit; Unit 58; Digit; Digit; Unit 58; Digit; Digit;
   Unit 46; Digit; Digit; Digit; Unit 90].

(** The complete extended format, with a four-digit year or a signed
    six-digit one. *)
Definition isIso8601 (s : jsstring) : bool :=
  matches ([Digit; Digit; Digit; Digit] ++ afterYear) s
  || matches ([Sign; Digit; Digit; Digit; Digit; Digit; Digit] ++ afterYear) s.

End Timestamp.

(** ** Scenarios *)

Module Scenario.

(** [{message: "Compare my i5 CPU to requirements"}] *)
Definition compare : list (string * JsValue) :=
  [("message"%string, JStr (js "Compare my i5 CPU to requirements"))].

(** [{message: "hi"}] *)
Definition hi : list (string * JsValue) :=
  [("message"%string, JStr (js "hi"))].

Definition compatible : GenerateContentResponse :=
  {| text := inr (js "✅ Compatível");
     usageMetadata := Some {| totalTokenCount := Some 42%Z |} |}.

(** A stub that fulfils after [d] ms with [r]. *)
Definition answers (d : N) (r : GenerateContentResponse) : Sdk :=
  {| startChatThrows := λ _, None;
     completion := Some (d, Fulfilled (Some {| response := Some r |}));
     onAbort := None |}.

(** A stub that fulfils after [d] ms with an object without [response]. *)
Definition answersEmpty (d : N) : Sdk :=
  {| startChatThrows := λ _, None;
     completion := Some (d, Fulfilled (Some {| response := None |}));
     onAbort := None |}.

(** A stub that rejects after [d] ms. *)
Definition fails (d : N) (msg : jsstring) : Sdk :=
  {| startChatThrows := λ _, None;
     completion := Some (d, Rejected {| message := msg |});
     onAbort := None |}.

(** A stub that never settles and ignores the abort signal. *)
Definition hangs : Sdk :=
  {| startChatThrows := λ _, None; completion := None; onAbort := None |}.

(** A call that never completes on its own and honours the signal the
    way [fetch] does: it rejects as soon as the signal fires. *)
Definition hangsUntilAborted : Sdk :=
  {| startChatThrows := λ _, None;
     completion := None;
     onAbort := Some {| message := js "This operation was aborted" |} |}.

Definition development : gmap string jsstring :=
  {[ "NODE_ENV"%string := js "development" ]}.

Definition production : gmap string jsstring :=
  {[ "NODE_ENV"%string := js "production" ]}.

End Scenario.

(** An environment that sets only [MAX_TOKENS]. *)
Definition maxTokensEnv (v : jsstring) : gmap string jsstring :=
  {[ "MAX_TOKENS"%string := v ]}.



(** * The rest of the server *)

(** ** Set-up: CORS origins, static files, the health route *)

Module Setup.

(** [String.prototype.split] with a separator of one code unit. *)
Fixpoint split (sep : N) (s : jsstring) : list jsstring :=
  match s with
  | [] => [[]]
  | c :: r =>
    if c =? sep then [] :: split sep r
    else
      match split sep r with
      | piece :: pieces => (c :: piece) :: pieces
      | [] => [[c]]
      end
  end.

(** The [origin] option of [cors]: a list of origins or the wildcard. *)
Inductive Origin := AnyOrigin | Origins (allowed : list jsstring).

(** [process.env.ALLOWED_ORIGINS?.split(',') || '*']; the array that
    [split] returns is truthy, whatever it holds. *)
Definition corsOrigin (env : gmap string jsstring) : Origin :=
  match env !! "ALLOWED_ORIGINS"%string with
  | Some s => Origins (split 44 s)
  | None => AnyOrigin
  end.

(** [String.prototype.endsWith] *)
Definition endsWith (s suffix : jsstring) : bool :=
  (length suffix <=? length s)%nat
  && JsString.eqb (drop (length s - length suffix) s) suffix.

(** The [setHeaders] callback of [express.static]: the headers it sets
    for the file at [path]. *)
Definition setHeaders (path : jsstring) : list (string * jsstring) :=
  if endsWith path (js ".css") || endsWith path (js ".js")
  then [("Cache-Control"%string, js "public, max-age=31536000")]
  else [].

(** [process.env.MAX_TOKENS || 1000], as the health route reports it. *)
Definition reportedMaxTokens (env : gmap string jsstring) : JsValue :=
  match env !! "MAX_TOKENS"%string with
  | Some (c :: r) => JStr (c :: r)
  | Some [] | None => JNum 1000
  end.

(** [app.get("/api/health", ...)], answered at wall-clock time [now]. *)
Definition health (env : gmap string jsstring) (now : N) : Response :=
  {| status := 200;
     body := stringifyProps
       [("status"%string, JStr (js "OK"));
        ("timestamp"%string, JStr (Builtins.toISOString now));
        ("version"%string, JStr (js "1.1.0"));
        ("environment"%string,
         JStr (Builtins.stringOr (env !! "NODE_ENV"%string)
                 (js "development")));
        ("limits"%string, JObj
           [("requestsPerHour"%string, Server.API_REQUEST_LIMIT env);
            ("maxTokens"%string, reportedMaxTokens env)])] |}.

End Setup.

(** [Array.prototype.join] with a separator of one code unit. *)
Fixpoint join (sep : N) (pieces : list jsstring) : jsstring :=
  match pieces with
  | [] => []
  | [p] => p
  | p :: rest => p ++ sep :: join sep rest
  end.


(** * The page script *)

(** ** The roulette *)

Module Roulette.

Definition imagens : list jsstring :=
  [js "assets/roleta1.png"; js "assets/roleta2.png"; js "assets/roleta3.png"].

(** [Math.floor(Math.random() * imagens.length)]: [Math.random()] is at
    least 0 and less than 1, so the result is one of the three indices. *)
Inductive Draw := First | Second | Third.

Definition indexOf (d : Draw) : nat :=
  match d with First => 0 | Second => 1 | Third => 2 end.

(** The variables of the script and the [src] of the slot image.
    [intervaloAnimacao] is [true] while it holds an interval id;
    [contador] is the counter of the running animation; [src] is [None]
    until the script assigns it, and holds [None] if it was assigned
    [undefined]; [reveal] is the armed 2.5 s timer with the [imageFinal]
    it captured. *)
Record Slot := {
  intervaloAnimacao : bool;
  imageRevelada : bool;
  contador : N;
  src : option (option jsstring);
  reveal : option (option jsstring)
}.

Definition loaded : Slot :=
  {| intervaloAnimacao := false; imageRevelada := false; contador := 0;
     src := None; reveal := None |}.

Inductive Event :=
| LeverClick (d : Draw)
| IntervalTick
| RevealTimeout.

(** The click listener of the lever, which starts the animation
    ([iniciarAnimacao]) and arms the reveal. *)
Definition leverClick (d : Draw) (s : Slot) : Slot :=
  if intervaloAnimacao s || imageRevelada s then s
  else
    {| intervaloAnimacao := true; imageRevelada := imageRevelada s;
       contador := 0; src := src s;
       reveal := Some (imagens !! indexOf d) |}.

(** The callback of [setInterval]; it runs only while the interval is
    set. *)
Definition intervalTick (s : Slot) : Slot :=
  if intervaloAnimacao s
  then
    {| intervaloAnimacao := true; imageRevelada := imageRevelada s;
       contador := contador s + 1;
       src := Some (imagens !! N.to_nat (contador s mod N.of_nat (length imagens)));
       reveal := reveal s |}
  else s.

(** The callback of the 2.5 s [setTimeout]; it runs once, if armed. *)
Definition revealTimeout (s : Slot) : Slot :=
  match reveal s with
  | Some imageFinal =>
    {| intervaloAnimacao := false; imageRevelada := true;
       contador := contador s; src := Some imageFinal; reveal := None |}
  | None => s
  end.

Definition step (s : Slot) (e : Event) : Slot :=
  match e with
  | LeverClick d => leverClick d s
  | IntervalTick => intervalTick s
  | RevealTimeout => revealTimeout s
  end.

Definition run (s : Slot) (events : list Event) : Slot :=
  foldl step s events.

(** The clicks of [events] that start an animation. *)
Fixpoint spins (s : Slot) (events : list Event) : nat :=
  match events with
  | [] => 0
  | e :: rest =>
    (match e with
     | LeverClick _ =>
       if intervaloAnimacao s || imageRevelada s then 0 else 1
     | _ => 0
     end + spins (step s e) rest)%nat
  end.

End Roulette.

(** ** The questionnaire *)

Module Quiz.

Inductive Kind := Radio | Text.

Record Choice := { value : jsstring; label : jsstring }.

Record Question := {
  ident : string;
  question : jsstring;
  kind : Kind;
  options : list Choice
}.

Definition questions : list Question :=
  [ {| ident := "os";
     question := js "Qual é o sistema operacional do seu computador?";
     kind := Radio;
     options :=
       [{| value := js "windows10"; label := js "Windows 10" |};
       {| value := js "windows7"; label := js "Windows 7" |};
       {| value := js "macos"; label := js "macOS" |};
       {| value := js "linux"; label := js "Linux" |};
       {| value := js "other"; label := js "Outro (Especificar)" |}] |};
    {| ident := "gpu";
     question := js "Qual é a sua placa de vídeo?";
     kind := Radio;
     options :=
       [{| value := js "gtx1060_up"; label := js "NVIDIA GeForce GTX 1060 ou superior" |};
       {| value := js "gtx1050"; label := js "NVIDIA GeForce GTX 1050/1050 Ti" |};
       {| value := js "radeon580"; label := js "AMD Radeon RX 580" |};
       {| value := js "intel_hd"; label := js "Intel HD Graphics (Integrada)" |};
       {| value := js "other"; label := js "Outra (Especificar)" |}] |};
    {| ident := "ram";
     question := js "Quantos GB de RAM seu computador possui?";
     kind := Radio;
     options :=
       [{| value := js "4gb"; label := js "4 GB" |};
       {| value := js "8gb"; label := js "8 GB" |};
       {| value := js "16gb"; label := js "16 GB" |};
       {| value := js "32gb"; label := js "32 GB" |};
       {| value := js "other"; label := js "Outro (Especificar)" |}] |};
    {| ident := "cpu";
     question := js "Qual processador (CPU) seu computador possui?";
     kind := Radio;
     options :=
       [{| value := js "intel_i5"; label := js "Intel i5 ou equivalente" |};
       {| value := js "intel_i7"; label := js "Intel i7 ou equivalente" |};
       {| value := js "amd_ryzen5"; label := js "AMD Ryzen 5 ou equivalente" |};
       {| value := js "intel_i3"; label := js "Intel i3 ou equivalente" |};
       {| value := js "other"; label := js "Outro (Especificar)" |}] |};
    {| ident := "storage";
     question := js "Quantos GB de espaço livre você tem em seu disco rígido?";
     kind := Radio;
     options :=
       [{| value := js "less_50gb"; label := js "Menos de 50 GB" |};
       {| value := js "50gb"; label := js "50 GB" |};
       {| value := js "100gb"; label := js "100 GB" |};
       {| value := js "250gb"; label := js "250 GB" |};
       {| value := js "other"; label := js "Outro (Especificar)" |}] |};
    {| ident := "software";
     question := js "Qual é o software que deseja utilizar?";
     kind := Text;
     options :=
       [] |} ].

(** The instruction that precedes the answers in the request. *)
Definition prompt : jsstring :=
  js "Receba as configurações do PC de um usuário, como processador, memória RAM, placa de vídeo e outros componentes, e compare essas informações com os requisitos mínimos e recomendados de um software ou jogo específico. Após comparar as especificações do sistema, forneça uma análise clara e objetiva sobre a capacidade do computador em rodar o software/jogo solicitado. Comece com um feedback direto, dizendo se o sistema é ou não capaz de rodar o software/jogo, seguido de uma breve explicação sobre o que atende ou não aos requisitos, com sugestões de melhorias, se necessário. Use uma linguagem simples e direta, sem exageros. Exemplo de saída: Seu PC está apto! 😀 Seu processador, memória RAM e placa de vídeo são mais que suficientes para rodar o jogo com bom desempenho. No entanto, se você deseja uma experiência ainda mais fluida, um monitor com alta taxa de atualização pode ser uma boa adição. Ou Seu PC não está apto 😞 Seu processador e placa de vídeo não atendem aos requisitos mínimos, o que pode resultar em desempenho abaixo do esperado. Recomendo uma atualização para uma placa de vídeo mais recente, como a NVIDIA GTX 1660 ou superior. Limita sua resposta em 4Receba as configurações do PC de um usuário, como processador, memória RAM, placa de vídeo e outros componentes, e compare essas informações com os requisitos mínimos e recomendados de um software ou jogo específico. Após comparar as especificações do sistema, forneça uma análise clara e objetiva sobre a capacidade do computador em rodar o software/jogo solicitado. Comece com um feedback direto, dizendo se o sistema é ou não capaz de rodar o software/jogo, seguido de uma breve explicação sobre o que atende ou não aos requisitos, com sugestões de melhorias, se necessário. Use uma linguagem simples e direta, sem exageros. Sugira melhorias, e diga como que o jogo vai rodar usando exemplos. Exemplo de saída: Seu PC está apto! 😀 Seu processador, memória RAM e placa de vídeo são mais que suficientes para rodar o jogo com bom desempenho e gráfricos médios. No entanto, se você deseja uma experiência ainda mais fluida, um monitor com alta taxa de atualização pode ser uma boa adição. Ou Seu PC não está apto 😞 Seu processador e placa de vídeo não atendem aos requisitos mínimos, o que pode resultar em desempenho abaixo do esperado. Recomendo uma atualização para uma placa de vídeo mais recente, como a NVIDIA GTX 1660 ou superior. Limita sua resposta em 400 caracteres. Aqui estão os dados:".

(** [questions[index]] *)
Definition questionAt (index : Z) : option Question :=
  if (index <? 0)%Z then None else questions !! Z.to_nat index.

(** [questions.length - 1] *)
Definition lastIndex : Z := Z.of_nat (length questions) - 1.

(** [style.width] of the progress bar: the literal ['0%'], or the text
    of [((n / d) * 100)] followed by a percent sign; the quotient is a
    floating-point number and is kept unevaluated. *)
Inductive Width := ZeroPercent | PercentOf (n d : Z).

Inductive Effect :=
| Alert (text : jsstring)
| ConsoleLog (args : list jsstring)
| ConsoleError (text : jsstring)
| Fetch (content : jsstring)
| Render (index : Z)
| Uncaught (error : JsError).

(** What the form of the current question holds when a handler reads
    it: the value of the checked radio input, the text of the
    specification input, the text of the text input; [None] when the
    element is not there. *)
Record Form := {
  checked : option jsstring;
  otherText : option jsstring;
  textValue : option jsstring
}.

(** The variables of the script, the parts of the document it writes
    (class lists by element id, the markup of the next button, the width
    of the progress bar, the text of the response), and its effects.
    The markup that [showQuestion] writes into the question container is
    recorded as [Render index], not spelled out. *)
Record Page := {
  currentQuestionIndex : Z;
  answers : gmap string jsstring;
  otherSpecifications : gmap string jsstring;
  classList : gmap string (gset string);
  nextBtnHtml : option jsstring;
  progressWidth : option Width;
  responseText : option jsstring;
  log : list Effect
}.

Definition setIndex (i : Z) (p : Page) : Page :=
  {| currentQuestionIndex := i; answers := answers p;
     otherSpecifications := otherSpecifications p;
     classList := classList p; nextBtnHtml := nextBtnHtml p;
     progressWidth := progressWidth p; responseText := responseText p;
     log := log p |}.

Definition setAnswers (a : gmap string jsstring) (p : Page) : Page :=
  {| currentQuestionIndex := currentQuestionIndex p; answers := a;
     otherSpecifications := otherSpecifications p;
     classList := classList p; nextBtnHtml := nextBtnHtml p;
     progressWidth := progressWidth p; responseText := responseText p;
     log := log p |}.

Definition setOther (o : gmap string jsstring) (p : Page) : Page :=
  {| currentQuestionIndex := currentQuestionIndex p; answers := answers p;
     otherSpecifications := o;
     classList := classList p; nextBtnHtml := nextBtnHtml p;
     progressWidth := progressWidth p; responseText := responseText p;
     log := log p |}.

Definition setClasses (c : gmap string (gset string)) (p : Page) : Page :=
  {| currentQuestionIndex := currentQuestionIndex p; answers := answers p;
     otherSpecifications := otherSpecifications p;
     classList := c; nextBtnHtml := nextBtnHtml p;
     progressWidth := progressWidth p; responseText := responseText p;
     log := log p |}.

Definition setNextBtnHtml (h : jsstring) (p : Page) : Page :=
  {| currentQuestionIndex := currentQuestionIndex p; answers := answers p;
     otherSpecifications := otherSpecifications p;
     classList := classList p; nextBtnHtml := Some h;
     progressWidth := progressWidth p; responseText := responseText p;
     log := log p |}.

Definition setWidth (w : Width) (p : Page) : Page :=
  {| currentQuestionIndex := currentQuestionIndex p; answers := answers p;
     otherSpecifications := otherSpecifications p;
     classList := classList p; nextBtnHtml := nextBtnHtml p;
     progressWidth := Some w; responseText := responseText p;
     log := log p |}.

Definition setResponseText (t : jsstring) (p : Page) : Page :=
  {| currentQuestionIndex := currentQuestionIndex p; answers := answers p;
     otherSpecifications := otherSpecifications p;
     classList := classList p; nextBtnHtml := nextBtnHtml p;
     progressWidth := progressWidth p; responseText := Some t;
     log := log p |}.

Definition say (e : Effect) (p : Page) : Page :=
  {| currentQuestionIndex := currentQuestionIndex p; answers := answers p;
     otherSpecifications := otherSpecifications p;
     classList := classList p; nextBtnHtml := nextBtnHtml p;
     progressWidth := progressWidth p; responseText := responseText p;
     log := log p ++ [e] |}.

(** [element.classList.add], [remove] and [toggle(name, force)] *)
Definition addClass (el c : string) (p : Page) : Page :=
  setClasses (<[el := {[c]} ∪ default ∅ (classList p !! el)]> (classList p)) p.

Definition removeClass (el c : string) (p : Page) : Page :=
  setClasses (<[el := default ∅ (classList p !! el) ∖ {[c]}]> (classList p)) p.

Definition toggleClass (el c : string) (force : bool) (p : Page) : Page :=
  if force then addClass el c p else removeClass el c p.

(** A handler either completes or stops at an exception, which is then
    reported as uncaught; what it wrote before stays written. *)
Inductive Result := Completed (p : Page) | Threw (p : Page).

Definition throw (text : jsstring) (p : Page) : Result :=
  Threw (say (Uncaught {| message := text |}) p).

Definition pageOf (r : Result) : Page :=
  match r with Completed p | Threw p => p end.

Definition arrow : jsstring :=
  js " <i class=" ++ [34] ++ js "fas fa-arrow-right ml-2" ++ [34] ++ js "></i>".

Definition showQuestion (index : Z) (p : Page) : Result :=
  let p1 := toggleClass "prev-btn" "hidden" (index =? 0)%Z p in
  let p2 :=
    setNextBtnHtml
      (if (index =? lastIndex)%Z then js "Ver Resultados" ++ arrow
       else js "Próxima Pergunta" ++ arrow) p1 in
  match questionAt index with
  | None =>
    throw (js "Cannot read properties of undefined (reading 'question')") p2
  | Some _ =>
    Completed (addClass "question-container" "question-enter"
                 (say (Render index) p2))
  end.

(** [!specInput.value.trim()] *)
Definition blank (t : jsstring) : bool :=
  match JsString.trim t with [] => true | _ :: _ => false end.

Definition validateAnswer (f : Form) (p : Page) : Result * bool :=
  match questionAt (currentQuestionIndex p) with
  | None =>
    (throw (js "Cannot read properties of undefined (reading 'type')") p,
     false)
  | Some q =>
    match kind q with
    | Radio =>
      match checked f with
      | None =>
        (Completed
           (say (Alert (js "Por favor, selecione uma opção para continuar.")) p),
         false)
      | Some v =>
        if JsString.eqb v (js "other")
        then
          match otherText f with
          | Some t =>
            if blank t
            then
              (Completed
                 (say (Alert (js "Por favor, especifique a opção "
                              ++ [34] ++ js "Outro" ++ [34] ++ js ".")) p),
               false)
            else (Completed p, true)
          | None =>
            (Completed
               (say (Alert (js "Por favor, especifique a opção "
                            ++ [34] ++ js "Outro" ++ [34] ++ js ".")) p),
             false)
          end
        else (Completed p, true)
      end
    | Text =>
      match textValue f with
      | None =>
        (throw (js "Cannot read properties of null (reading 'value')") p,
         false)
      | Some t =>
        if blank t
        then
          (Completed
             (say (Alert
                     (js "Por favor, insira o nome do software para continuar."))
                p),
           false)
        else (Completed p, true)
      end
    end
  end.

Definition saveAnswer (f : Form) (p : Page) : Result :=
  match questionAt (currentQuestionIndex p) with
  | None =>
    throw (js "Cannot read properties of undefined (reading 'type')") p
  | Some q =>
    match kind q with
    | Radio =>
      match checked f with
      | Some v =>
        let p1 := setAnswers (<[ident q := v]> (answers p)) p in
        if JsString.eqb v (js "other")
        then
          match otherText f with
          | Some t =>
            Completed
              (setOther (<[ident q := JsString.trim t]>
                           (otherSpecifications p1)) p1)
          | None => Completed p1
          end
        else Completed p1
      | None => Completed p
      end
    | Text =>
      match textValue f with
      | Some t =>
        Completed (setAnswers (<[ident q := JsString.trim t]> (answers p)) p)
      | None =>
        throw (js "Cannot read properties of null (reading 'value')") p
      end
    end
  end.

Definition updateProgress (p : Page) : Page :=
  setWidth (PercentOf (currentQuestionIndex p + 1)
              (Z.of_nat (length questions))) p.

(** A value interpolated into a template literal. *)
Definition interpolate (v : option jsstring) : jsstring :=
  default (js "undefined") v.

Definition textContent (a : gmap string jsstring) : jsstring :=
  js "Respostas do Diagnóstico de Hardware ---" ++ [10]
  ++ js "Sistema Operacional: " ++ interpolate (a !! "os"%string) ++ [10]
  ++ js "Placa de Vídeo (GPU): " ++ interpolate (a !! "gpu"%string) ++ [10]
  ++ js "Memória RAM: " ++ interpolate (a !! "ram"%string) ++ [10]
  ++ js "Processador (CPU): " ++ interpolate (a !! "cpu"%string) ++ [10]
  ++ js "Armazenamento disponível: "
  ++ interpolate (a !! "storage"%string) ++ [10]
  ++ js "Software desejado: " ++ interpolate (a !! "software"%string).

Definition showLoader (p : Page) : Page :=
  removeClass "loader" "hidden"
    (addClass "loader" "show" (say (ConsoleLog [js "OK"]) p)).

Definition hideLoader (p : Page) : Page :=
  removeClass "loader" "show" (addClass "loader" "hidden" p).

(** [generateApiText], up to the [fetch] of [getOpenAIResponse]: a POST
    to the completions URL for model [gpt-4] with [max_tokens] 150, whose
    single user message is [content].  The constant headers of the
    request are not reproduced. *)
Definition generateApiText (p : Page) : Page :=
  say (Fetch (prompt ++ textContent (answers p)))
    (say (ConsoleLog [textContent (answers p)]) p).

Definition finishTest (p : Page) : Page := generateApiText (showLoader p).

Definition startTest (p : Page) : Page :=
  pageOf
    (showQuestion (currentQuestionIndex p)
       (removeClass "question-screen" "hidden"
          (addClass "welcome-screen" "hidden" p))).

Definition goToNextQuestion (f : Form) (p : Page) : Page :=
  match validateAnswer f p with
  | (Threw p1, _) => p1
  | (Completed p1, false) => p1
  | (Completed p1, true) =>
    match saveAnswer f p1 with
    | Threw p2 => p2
    | Completed p2 =>
      if (currentQuestionIndex p2 <? lastIndex)%Z
      then
        let p3 := setIndex (currentQuestionIndex p2 + 1) p2 in
        match showQuestion (currentQuestionIndex p3) p3 with
        | Threw p4 => p4
        | Completed p4 => updateProgress p4
        end
      else finishTest p2
    end
  end.

Definition goToPreviousQuestion (p : Page) : Page :=
  let p1 := setIndex (currentQuestionIndex p - 1) p in
  match showQuestion (currentQuestionIndex p1) p1 with
  | Threw p2 => p2
  | Completed p2 => updateProgress p2
  end.

Definition restartTest (p : Page) : Page :=
  addClass "results-icon" "hidden"
    (setWidth ZeroPercent
       (removeClass "welcome-screen" "hidden"
          (addClass "results-screen" "hidden"
             (setOther ∅ (setAnswers ∅ (setIndex 0 p)))))).

(** How the request ends: with a first choice and its content, without
    choices, or with an exception before the body was read. *)
Inductive Reply := Choice_ (content : jsstring) | NoChoices | Failed.

(** The rest of [getOpenAIResponse], after its two [await]s. *)
Definition apiReplied (r : Reply) (p : Page) : Page :=
  match r with
  | Failed => say (ConsoleError (js "Erro ao obter resposta:")) p
  | NoChoices =>
    say (ConsoleError (js "Nenhuma resposta encontrada."))
      (removeClass "results-screen" "hidden"
         (addClass "question-screen" "hidden" (hideLoader p)))
  | Choice_ content =>
    setResponseText content
      (say (ConsoleLog [js "Resposta da IA:"; content])
         (removeClass "results-screen" "hidden"
            (addClass "question-screen" "hidden" (hideLoader p))))
  end.

(** What can happen to the page: a click on one of the four buttons,
    with the form as it is at that moment for the next button; the end of
    a request; the 300 ms timer that [showQuestion] arms. *)
Inductive Event :=
| StartClick
| NextClick (f : Form)
| PrevClick
| RestartClick
| ApiReply (r : Reply)
| EnterTimeout.

Definition step (p : Page) (e : Event) : Page :=
  match e with
  | StartClick => startTest p
  | NextClick f => goToNextQuestion f p
  | PrevClick => goToPreviousQuestion p
  | RestartClick => restartTest p
  | ApiReply r => apiReplied r p
  | EnterTimeout => removeClass "question-container" "question-enter" p
  end.

Definition run (p : Page) (events : list Event) : Page := foldl step p events.

(** The variables as the script initialises them; the document is as
    the page's markup has it. *)
Definition freshlyLoaded (p : Page) : Prop :=
  currentQuestionIndex p = 0%Z /\ answers p = ∅
  /\ otherSpecifications p = ∅ /\ log p = [].

(** The contents of the requests sent so far. *)
Definition fetched (p : Page) : list jsstring :=
  omap (λ e, match e with Fetch c => Some c | _ => None end) (log p).

Definition uncaught (p : Page) : list JsError :=
  omap (λ e, match e with Uncaught err => Some err | _ => None end) (log p).

End Quiz.


(** ** The questionnaire, seen through its variables *)

Section QuizVocabulary.

Import Quiz.

(** The ids of the questions, in order. *)
Definition idents : list string := ident <$> questions.

(** What a click on the next button stores for question [q] when the
    form passes [validateAnswer]; [None] when it does not pass. *)
Definition entry (f : Form) (q : Question) : option jsstring :=
  match kind q with
  | Radio =>
    match checked f with
    | Some v =>
      if JsString.eqb v (js "other")
      then
        match otherText f with
        | Some t => if blank t then None else Some v
        | None => None
        end
      else Some v
    | None => None
    end
  | Text =>
    match textValue f with
    | Some t => if blank t then None else Some (JsString.trim t)
    | None => None
    end
  end.

(** The index, the answers and the requests sent: the part of the page
    that decides what is sent next. *)
Definition view (p : Page) : Z * gmap string jsstring * list jsstring :=
  (currentQuestionIndex p, answers p, fetched p).

Definition stepView (v : Z * gmap string jsstring * list jsstring)
    (e : Event) : Z * gmap string jsstring * list jsstring :=
  let '(i, a, sent) := v in
  match e with
  | NextClick f =>
    match questionAt i with
    | Some q =>
      match entry f q with
      | Some x =>
        let a' := <[ident q := x]> a in
        if (i <? lastIndex)%Z then (i + 1, a', sent)%Z
        else (i, a', sent ++ [prompt ++ textContent a'])
      | None => v
      end
    | None => v
    end
  | PrevClick => (i - 1, a, sent)%Z
  | RestartClick => (0%Z, ∅, sent)
  | StartClick | ApiReply _ | EnterTimeout => v
  end.

(** Two readings of the form that differ at most in the text of the
    specification, and agree on whether it is blank or missing. *)
Definition sameButSpecification (f f' : Form) : Prop :=
  checked f = checked f' /\ textValue f = textValue f'
  /\ match otherText f with Some t => blank t | None => true end
     = match otherText f' with Some t => blank t | None => true end.

Definition sameButSpecifications (e e' : Event) : Prop :=
  match e, e' with
  | NextClick f, NextClick f' => sameButSpecification f f'
  | _, _ => e = e'
  end.

(** Every answer is there. *)
Definition complete (a : gmap string jsstring) : Prop :=
  forall k, k ∈ idents -> is_Some (a !! k).

(** The previous button is clicked only past the first question. *)
Fixpoint previousOnlyPastFirst (p : Page) (events : list Event) : Prop :=
  match events with
  | [] => True
  | e :: rest =>
    (e = PrevClick -> (0 < currentQuestionIndex p)%Z)
    /\ previousOnlyPastFirst (step p e) rest
  end.

(** A page whose document has no class set and whose script has just
    been loaded. *)
Definition blankPage : Quiz.Page :=
  {| Quiz.currentQuestionIndex := 0; Quiz.answers := ∅;
     Quiz.otherSpecifications := ∅; Quiz.classList := ∅;
     Quiz.nextBtnHtml := None; Quiz.progressWidth := None;
     Quiz.responseText := None; Quiz.log := [] |}.

(** A form in which the radio input with value [v] is checked. *)
Definition picks (v : jsstring) : Quiz.Form :=
  {| Quiz.checked := Some v; Quiz.otherText := None; Quiz.textValue := None |}.

(** A form in which "other" is checked and specified as [t]. *)
Definition specifies (t : jsstring) : Quiz.Form :=
  {| Quiz.checked := Some (js "other"); Quiz.otherText := Some t;
     Quiz.textValue := None |}.

(** A form whose text input holds [t]. *)
Definition types (t : jsstring) : Quiz.Form :=
  {| Quiz.checked := None; Quiz.otherText := None; Quiz.textValue := Some t |}.

(** The index is at most 5 and every question before the index has its
    answer. *)
Definition steady (v : Z * gmap string jsstring * list jsstring) : Prop :=
  let '(i, a, _) := v in
  (i <= 5)%Z
  /\ (forall n k, idents !! n = Some k -> (Z.of_nat n < i)%Z -> is_Some (a !! k)).

(** A run through the six questions, with one step back. *)
Definition fullRun : list Event :=
  [StartClick; NextClick (picks (js "linux")); NextClick (picks (js "gtx1050"));
   NextClick (specifies (js "12 GB")); PrevClick;
   NextClick (picks (js "8gb")); NextClick (picks (js "intel_i5"));
   NextClick (picks (js "100gb")); NextClick (types (js "  Blender "))].

End QuizVocabulary.


(** ** The history of the session *)

(** The content that [chatHistory.map] builds from one turn. *)
Definition contentOf (msg : JsValue) : Content :=
  {| role := getProp "role" msg;
     parts := [ {| partText := getProp "content" msg |} ] |}.

(** ** The roulette, seen through its variables *)

Section RouletteVocabulary.

Import Roulette.

(** The animation has been started, or the image has been revealed. *)
Definition started (s : Slot) : bool := intervaloAnimacao s || imageRevelada s.

(** Once the image is revealed the interval is cleared and no reveal is
    armed. *)
Definition settledSlot (s : Slot) : Prop :=
  imageRevelada s = true -> intervaloAnimacao s = false /\ reveal s = None.

(** Every image the script holds or shows is one of the three. *)
Definition fromImagens (o : option (option jsstring)) : Prop :=
  o = None \/ exists img, img ∈ imagens /\ o = Some (Some img).

(** After an accepted click the slot is either still animating, with the
    drawn image waiting in the armed timer, or revealed with that image
    shown. *)
Definition spinning (img : jsstring) (s : Slot) : Prop :=
  intervaloAnimacao s = true /\ imageRevelada s = false
  /\ reveal s = Some (Some img).

Definition revealed (img : jsstring) (s : Slot) : Prop :=
  intervaloAnimacao s = false /\ imageRevelada s = true
  /\ reveal s = None /\ src s = Some (Some img).

End RouletteVocabulary.

(** * Properties *)

(** ** The loop quiesces *)

Section Quiescence.

Import EventLoop.

Lemma clearTimer_length h ts : (length (clearTimer h ts) <= length ts)%nat.
Proof.
  induction ts as [|t ts IH]; cbn [clearTimer length]; [lia|].
  destruct (Nat.eqb (handle t) h); cbn [length]; lia.
Qed.

Lemma nextTimer_In ts t : nextTimer ts = Some t -> In t ts.
Proof.
  revert t. induction ts as [|u ts IH]; intros t; cbn [nextTimer]; [discriminate|].
  destruct (nextTimer ts) as [v|].
  - destruct (due v <? due u); intros [= <-]; [right; auto | left; reflexivity].
  - intros [= <-]. left; reflexivity.
Qed.

Lemma clearTimer_In t ts :
  In t ts -> (length (clearTimer (handle t) ts) < length ts)%nat.
Proof.
  induction ts as [|u ts IH]; cbn [In clearTimer length]; [tauto|].
  intros [-> | Hin].
  - rewrite Nat.eqb_refl. pose proof (clearTimer_length (handle t) ts). lia.
  - specialize (IH Hin). destruct (Nat.eqb (handle u) (handle t)); cbn [length]; lia.
Qed.

Lemma pendingTasks_stamp es l : pendingTasks (stamp es l) = pendingTasks l.
Proof. reflexivity. Qed.

Lemma pendingTasks_adopt l : pendingTasks (adopt l) = pendingTasks l.
Proof. unfold adopt. destruct (raceP l), (sendP l); reflexivity. Qed.

Lemma pendingTasks_resume l : (pendingTasks (resume l) <= pendingTasks l)%nat.
Proof.
  unfold resume. destruct (raceP l) as [[result|error]|], (awaiting l) as [fr|];
    try lia; rewrite ?pendingTasks_stamp; unfold pendingTasks; cbn [timers inflight]; [|lia].
  pose proof (clearTimer_length (frameTimeout fr) (timers l)). lia.
Qed.

Lemma pendingTasks_reactions l :
  (pendingTasks (reactions l) <= pendingTasks l)%nat.
Proof.
  unfold reactions. etransitivity; [apply pendingTasks_resume|].
  rewrite pendingTasks_adopt. lia.
Qed.

Lemma pendingTasks_invoke cb l :
  (pendingTasks (invoke cb l) <= pendingTasks l)%nat.
Proof.
  destruct cb; cbn [invoke].
  - unfold abort. destruct (aborted (stamp [EAbort] l)); [rewrite pendingTasks_stamp; lia|].
    destruct (abortRejects (stamp [EAbort] l)), (sendP (stamp [EAbort] l));
      unfold pendingTasks; cbn [timers inflight stamp]; destruct (inflight l); lia.
  - unfold rejectTimeout. destruct (raceP l); [lia|]. unfold pendingTasks; cbn [timers inflight]. lia.
Qed.

Lemma pendingTasks_fire t l :
  In t (timers l) -> (pendingTasks (fire t l) < pendingTasks l)%nat.
Proof.
  intros Hin. unfold fire.
  eapply Nat.le_lt_trans; [apply pendingTasks_reactions|].
  eapply Nat.le_lt_trans; [apply pendingTasks_invoke|].
  rewrite pendingTasks_stamp. unfold pendingTasks; cbn [timers inflight].
  pose proof (clearTimer_In t (timers l) Hin). lia.
Qed.

Lemma pendingTasks_deliver c s l :
  inflight l = Some (c, s) -> (pendingTasks (deliver c s l) < pendingTasks l)%nat.
Proof.
  intros Hin. unfold deliver.
  eapply Nat.le_lt_trans; [apply pendingTasks_reactions|].
  unfold pendingTasks; cbn [timers inflight]. rewrite Hin. lia.
Qed.

(** Every turn of the loop consumes a pending task. *)
Lemma step_decreases l l' :
  step l = Some l' -> (pendingTasks l' < pendingTasks l)%nat.
Proof.
  unfold step. destruct (nextTimer (timers l)) as [t|] eqn:Ht.
  - apply nextTimer_In in Ht.
    destruct (inflight l) as [[c s]|] eqn:Hc.
    + destruct (due t <=? c); intros [= <-];
        [apply pendingTasks_fire | apply pendingTasks_deliver]; assumption.
    + intros [= <-]. apply pendingTasks_fire; assumption.
  - destruct (inflight l) as [[c s]|] eqn:Hc; [|discriminate].
    intros [= <-]. apply pendingTasks_deliver; assumption.
Qed.

Lemma run_idle fuel l :
  (pendingTasks l <= fuel)%nat -> step (run fuel l) = None.
Proof.
  revert l. induction fuel as [|fuel IH]; intros l Hle; cbn [run].
  - destruct (step l) as [l'|] eqn:Hs; [|reflexivity].
    apply step_decreases in Hs. lia.
  - destruct (step l) as [l'|] eqn:Hs; [|assumption].
    apply IH. apply step_decreases in Hs. lia.
Qed.

(** The handler's run is total: [drain] reaches a loop with no armed
    timer and no call in flight. *)
Lemma drain_idle l : step (drain l) = None.
Proof. apply run_idle. unfold drain. lia. Qed.

Lemma idle_nothing_pending l :
  step l = None -> timers l = [] /\ inflight l = None.
Proof.
  unfold step. destruct (nextTimer (timers l)) as [t|] eqn:Ht.
  - destruct (inflight l) as [[c s]|]; [destruct (due t <=? c)|]; discriminate.
  - destruct (inflight l) as [[c s]|]; [discriminate|]. intros _. split; [|reflexivity].
    destruct (timers l) as [|u ts]; [reflexivity|]. cbn [nextTimer] in Ht.
    destruct (nextTimer ts) as [v|]; [destruct (due v <? due u)|]; discriminate.
Qed.

End Quiescence.

(** ** The run from the [await] on *)

Section Armed.

Import Handler Chat EventLoop.

Variables (env : gmap string jsstring) (sdk : Sdk) (epoch : N)
          (message : jsstring) (params : StartChatParams).

(** One turn of the loop is evaluated inside out, so that every
    operation meets an explicit loop state. *)
Ltac pick :=
  unfold step at 1;
  cbn -[N.leb N.max N.add afterRace catchBlock step getModel fire deliver].

Ltac callback_ :=
  unfold fire, deliver;
  cbn -[N.leb N.max N.add afterRace catchBlock step getModel
        reactions invoke];
  cbn -[N.leb N.max N.add afterRace catchBlock step getModel reactions].

Ltac reactions_ :=
  unfold reactions;
  cbn -[N.leb N.max N.add afterRace catchBlock step getModel resume];
  cbn -[N.leb N.max N.add afterRace catchBlock step getModel].

Ltac turn := pick; callback_; reactions_.

Ltac start Hc :=
  unfold drain, pendingTasks, armed;
  cbn [timers inflight]; rewrite ?Hc;
  cbn [timers inflight length Nat.add run].

(** The call fulfils first: [timeout] is cleared, the response is built
    from the result, and the timer of the race still fires at 15 s. *)
Lemma drain_fulfilled_early d result :
  completion sdk = Some (d, Fulfilled result) ->
  d < timeoutMs ->
  trace (drain (armed env sdk epoch message params)) =
    prefix env message params ++ ((λ e, (d, e)) <$> afterRace (frameOf env epoch) (epoch + d) result)
           ++ [(timeoutMs, ETimerFired 2)].
Proof.
  intros Hc Hd.
  assert (E : (timeoutMs <=? d) = false) by (apply N.leb_gt; exact Hd).
  assert (M : N.max d timeoutMs = timeoutMs) by lia.
  start Hc. pick. rewrite E. callback_. reactions_.
  turn. rewrite !N.max_0_l, M. pick. reflexivity.
Qed.

(** The call rejects first: the handler goes to its [catch] block, and
    both timers stay armed and fire at 15 s. *)
Lemma drain_rejected_early d error :
  completion sdk = Some (d, Rejected error) ->
  d < timeoutMs ->
  trace (drain (armed env sdk epoch message params)) =
    prefix env message params ++ ((λ e, (d, e)) <$> catchBlock env error)
           ++ [(timeoutMs, ETimerFired 1); (timeoutMs, EAbort);
               (timeoutMs, ETimerFired 2)].
Proof.
  intros Hc Hd.
  assert (E : (timeoutMs <=? d) = false) by (apply N.leb_gt; exact Hd).
  assert (M : N.max d timeoutMs = timeoutMs) by lia.
  start Hc. pick. rewrite E. callback_. reactions_.
  pick. callback_.
  destruct (onAbort sdk); reactions_; turn;
    rewrite !N.max_0_l, M, N.max_id; reflexivity.
Qed.

(** Deadline reached, signal ignored: [abort] is called, then the
    timer of the race rejects it and the handler catches the timeout. *)
Lemma drain_deadline_ignored :
  pendingAtDeadline sdk ->
  onAbort sdk = None ->
  trace (drain (armed env sdk epoch message params)) =
    prefix env message params ++ [(timeoutMs, ETimerFired 1); (timeoutMs, EAbort);
               (timeoutMs, ETimerFired 2)]
           ++ ((λ e, (timeoutMs, e)) <$> catchBlock env timeoutError).
Proof.
  unfold pendingAtDeadline. intros Hp Ha.
  destruct (completion sdk) as [[d s]|] eqn:Hc.
  - assert (E : (timeoutMs <=? d) = true) by (apply N.leb_le; exact Hp).
    start Hc. pick. rewrite E. callback_. rewrite Ha. reactions_.
    pick. rewrite E. callback_. reactions_.
    turn. rewrite !N.max_0_l, !N.max_id. reflexivity.
  - start Hc. pick. callback_. rewrite Ha. reactions_.
    turn. rewrite !N.max_0_l, !N.max_id. reflexivity.
Qed.

(** Deadline reached, signal honoured: [abort] makes [sendMessage]
    reject, the race settles with that error before the second timer
    runs, and the handler catches the abort error instead of the
    timeout. *)
Lemma drain_deadline_honoured error :
  pendingAtDeadline sdk ->
  onAbort sdk = Some error ->
  trace (drain (armed env sdk epoch message params)) =
    prefix env message params ++ [(timeoutMs, ETimerFired 1); (timeoutMs, EAbort)]
           ++ ((λ e, (timeoutMs, e)) <$> catchBlock env error)
           ++ [(timeoutMs, ETimerFired 2)].
Proof.
  unfold pendingAtDeadline. intros Hp Ha.
  destruct (completion sdk) as [[d s]|] eqn:Hc.
  - assert (E : (timeoutMs <=? d) = true) by (apply N.leb_le; exact Hp).
    start Hc. pick. rewrite E. callback_. rewrite Ha. reactions_.
    turn. rewrite !N.max_0_l, !N.max_id. reflexivity.
  - start Hc. pick. callback_. rewrite Ha. reactions_.
    turn. rewrite !N.max_0_l, !N.max_id. reflexivity.
Qed.

End Armed.

(** Read an observation off a loop whose trace [H] gives. *)
Ltac observe H :=
  unfold Chat.responses, Chat.caught, Chat.aborts, Chat.upstreamCalls,
    Chat.fired, Chat.cleared, Chat.sessions;
  rewrite H;
  unfold Chat.prefix, Chat.armed, Chat.frameOf, Handler.afterRace,
    Handler.catchBlock;
  cbn -[Handler.errorResponse Handler.successResponse Chat.getModel
        Handler.timeoutMs].

(** ** The handler takes the branch the decision names *)

Section Verdict.

Import Handler Chat EventLoop.

Lemma valid_message_is_string v :
  invalidMessage v = false -> exists s, v = JStr s.
Proof.
  destruct v as [| |b|n|s|items|props]; try (eexists; reflexivity);
    unfold invalidMessage; cbn [typeOf isStringType negb];
    rewrite Bool.orb_true_r; discriminate.
Qed.

Lemma enter_accepted env sdk epoch payload message contents :
  accepted env sdk payload message contents ->
  enter env sdk epoch payload
    = armed env sdk epoch message (sessionParams env contents).
Proof.
  intros (Hm & Hv & Hh & Hs). unfold enter.
  rewrite Hm, Hv, Hh, Hs. reflexivity.
Qed.

Lemma drain_no_tasks l : timers l = [] -> inflight l = None -> drain l = l.
Proof. intros Ht Hi. unfold drain, pendingTasks. rewrite Ht, Hi. reflexivity. Qed.

(** From the [await] on, the loop answers as [raced] says. *)
Lemma armed_responses env sdk epoch message params :
  let l := drain (armed env sdk epoch message params) in
  responses l = [answer env epoch (raced sdk)]
  /\ caught l = logged (raced sdk)
  /\ sessions l = [params]
  /\ upstreamCalls l = [(0, message)].
Proof.
  cbn zeta. unfold raced.
  destruct (completion sdk) as [[d s]|] eqn:Hc.
  - destruct (N.ltb_spec d timeoutMs) as [Hd|Hd].
    + destruct s as [result|error].
      * pose proof (drain_fulfilled_early env sdk epoch message params d result Hc Hd) as H.
        observe H. unfold settled.
        destruct (result ≫= response) as [r|]; [destruct (text r)|]; repeat split; reflexivity.
      * pose proof (drain_rejected_early env sdk epoch message params d error Hc Hd) as H.
        observe H. repeat split; reflexivity.
    + assert (Hp : pendingAtDeadline sdk) by (unfold pendingAtDeadline; rewrite Hc; exact Hd).
      unfold deadline. destruct (onAbort sdk) as [e|] eqn:Ha.
      * pose proof (drain_deadline_honoured env sdk epoch message params e Hp Ha) as H.
        observe H. repeat split; reflexivity.
      * pose proof (drain_deadline_ignored env sdk epoch message params Hp Ha) as H.
        observe H. repeat split; reflexivity.
  - assert (Hp : pendingAtDeadline sdk) by (unfold pendingAtDeadline; rewrite Hc; exact I).
    unfold deadline. destruct (onAbort sdk) as [e|] eqn:Ha.
    + pose proof (drain_deadline_honoured env sdk epoch message params e Hp Ha) as H.
      observe H. repeat split; reflexivity.
    + pose proof (drain_deadline_ignored env sdk epoch message params Hp Ha) as H.
      observe H. repeat split; reflexivity.
Qed.

(** Every request is answered exactly once, by the branch [verdict]
    names; the errors logged are the ones caught. *)
Theorem post_verdict env sdk epoch payload :
  responses (post env sdk epoch payload)
    = [answer env epoch (verdict env sdk payload)]
  /\ caught (post env sdk epoch payload) = logged (verdict env sdk payload).
Proof.
  unfold post, verdict, enter.
  destruct (invalidMessage (messageOf payload)) eqn:Hv.
  - rewrite drain_no_tasks by reflexivity. split; reflexivity.
  - destruct (valid_message_is_string _ Hv) as [s Hs]. rewrite Hs.
    destruct (mapHistory (chatHistoryOf payload)) as [e|contents].
    + rewrite drain_no_tasks by reflexivity. split; reflexivity.
    + destruct (startChatThrows sdk (sessionParams env contents)) as [e|].
      * rewrite drain_no_tasks by reflexivity. split; reflexivity.
      * pose proof (armed_responses env sdk epoch s
                      (sessionParams env contents)) as H.
        cbn zeta in H. tauto.
Qed.

(** Every session the handler opens carries the configuration built
    from the environment at that request. *)
Lemma post_sessions env sdk epoch payload p :
  p ∈ sessions (post env sdk epoch payload) ->
  exists contents, p = sessionParams env contents.
Proof.
  unfold post, enter.
  destruct (invalidMessage (messageOf payload)) eqn:Hv.
  - rewrite drain_no_tasks by reflexivity. cbn. intros H.
    apply elem_of_nil in H. destruct H.
  - destruct (valid_message_is_string _ Hv) as [s Hs]. rewrite Hs.
    destruct (mapHistory (chatHistoryOf payload)) as [e|contents].
    + rewrite drain_no_tasks by reflexivity. cbn. intros H.
      apply elem_of_nil in H. destruct H.
    + destruct (startChatThrows sdk (sessionParams env contents)) as [e|].
      * rewrite drain_no_tasks by reflexivity. cbn. intros H.
        apply list_elem_of_singleton in H. eauto.
      * pose proof (armed_responses env sdk epoch s
                      (sessionParams env contents)) as H.
        cbn zeta in H. destruct H as (_ & _ & -> & _). intros H.
        apply list_elem_of_singleton in H. eauto.
Qed.

(** A request that is not accepted never reaches [sendMessage]; an
    accepted one calls it once, on entry. *)
Lemma post_upstream_accepted env sdk epoch payload message contents :
  accepted env sdk payload message contents ->
  upstreamCalls (post env sdk epoch payload) = [(0, message)].
Proof.
  intros Hacc. unfold post. rewrite (enter_accepted _ _ _ _ _ _ Hacc).
  pose proof (armed_responses env sdk epoch message
                (sessionParams env contents)) as H.
  cbn zeta in H. tauto.
Qed.

Lemma verdict_accepted env sdk payload message contents :
  accepted env sdk payload message contents ->
  verdict env sdk payload = raced sdk.
Proof.
  intros (Hm & Hv & Hh & Hs). unfold verdict. rewrite Hm, Hv, Hh, Hs.
  reflexivity.
Qed.

Lemma statusCode_cases e :
  statusCode e = 504 \/ statusCode e = 400 \/ statusCode e = 500.
Proof.
  unfold statusCode.
  destruct (includes (message e) (js "Timeout")); [tauto|].
  destruct (includes (message e) (js "invalid")); tauto.
Qed.

(** Only the success branch answers with status 200, and it is taken
    only by an accepted request whose call fulfilled before the
    deadline with a response whose text could be read. *)
Lemma verdict_success env sdk epoch payload t r :
  answer env epoch (verdict env sdk payload) = (t, r) ->
  status r = 200 ->
  exists message contents result resp responseText,
    accepted env sdk payload message contents
    /\ completion sdk = Some (t, Fulfilled (Some result))
    /\ t < timeoutMs
    /\ response result = Some resp
    /\ text resp = inr responseText
    /\ r = successResponse responseText (epoch + t) (modelName env) resp.
Proof.
  assert (Herr : forall e t', answer env epoch (VCaught t' e) = (t, r) ->
                             status r = 200 -> False).
  { intros e t' [= _ <-]. cbn [status errorResponse].
    destruct (statusCode_cases e) as [-> | [-> | ->]]; discriminate. }
  unfold verdict.
  destruct (invalidMessage (messageOf payload)) eqn:Hv.
  { intros [= _ <-]. discriminate. }
  destruct (valid_message_is_string _ Hv) as [s Hs].
  destruct (mapHistory (chatHistoryOf payload)) as [e|contents] eqn:Hh.
  { intros H1 H2. destruct (Herr _ _ H1 H2). }
  destruct (startChatThrows sdk (sessionParams env contents)) as [e|] eqn:Hst.
  { intros H1 H2. destruct (Herr _ _ H1 H2). }
  unfold raced, deadline.
  destruct (completion sdk) as [[d st]|] eqn:Hc;
    [destruct (N.ltb_spec d timeoutMs) as [Hd|Hd]|];
    try (intros H1 H2; destruct (Herr _ _ H1 H2)).
  unfold settled. destruct st as [[result|]|e]; cbn [mbind option_bind];
    try (intros H1 H2; destruct (Herr _ _ H1 H2)).
  destruct (response result) as [resp|] eqn:Hr;
    try (intros H1 H2; destruct (Herr _ _ H1 H2)).
  destruct (text resp) as [e|responseText] eqn:Ht;
    try (intros H1 H2; destruct (Herr _ _ H1 H2)).
  intros [= <- <-] _. exists s, contents, result, resp, responseText.
  rewrite Hs in Hv. unfold accepted. rewrite Hs. tauto.
Qed.

End Verdict.

(** ** Validation *)

Section Validation.

Import Handler Chat.

Lemma invalidMessage_not_string v :
  typeOf v <> TString -> invalidMessage v = true.
Proof.
  intros H. destruct v as [| |b|n|s|items|props];
    try (unfold invalidMessage; cbn [typeOf isStringType negb];
         rewrite Bool.orb_true_r; reflexivity).
  destruct H. reflexivity.
Qed.

Lemma invalidMessage_short s :
  JsString.len (JsString.trim s) < 5 -> invalidMessage (JStr s) = true.
Proof.
  intros H. unfold invalidMessage. apply N.ltb_lt in H. rewrite H.
  apply Bool.orb_true_r.
Qed.

(** C3: a request whose [message] is absent, is not a string, or has
    fewer than five code units once trimmed is answered at once with
    status 400, [success: false] and an error that names the minimum
    length; no session is opened and [sendMessage] is never called. *)
Theorem C3_invalid_message_rejected env sdk epoch payload :
  (messageOf payload = JUndefined
   \/ typeOf (messageOf payload) <> TString
   \/ exists s, messageOf payload = JStr s
                /\ JsString.len (JsString.trim s) < 5) ->
  responses (post env sdk epoch payload) = [(0, invalidMessageResponse)]
  /\ status invalidMessageResponse = 400
  /\ getField "success" (body invalidMessageResponse) = JBool false
  /\ (exists err, getField "error" (body invalidMessageResponse) = JStr err
                  /\ includes err (js "pelo menos 5 caracteres") = true)
  /\ upstreamCalls (post env sdk epoch payload) = []
  /\ sessions (post env sdk epoch payload) = [].
Proof.
  intros H.
  assert (Hv : invalidMessage (messageOf payload) = true).
  { destruct H as [-> | [H | (s & -> & H)]];
      [reflexivity | apply invalidMessage_not_string, H
       | apply invalidMessage_short, H]. }
  unfold post, enter. rewrite Hv, drain_no_tasks by reflexivity.
  repeat split; try reflexivity.
  eexists. split; [reflexivity | vm_compute; reflexivity].
Qed.

Lemma C3_witness :
  (messageOf Scenario.hi = JUndefined
   \/ typeOf (messageOf Scenario.hi) <> TString
   \/ exists s, messageOf Scenario.hi = JStr s
                /\ JsString.len (JsString.trim s) < 5)
  /\ responses (post ∅ Scenario.hangs 0 Scenario.hi)
     = [(0, invalidMessageResponse)]
  /\ upstreamCalls (post ∅ Scenario.hangs 0 Scenario.hi) = [].
Proof.
  assert (H : messageOf Scenario.hi = JUndefined
              \/ typeOf (messageOf Scenario.hi) <> TString
              \/ exists s, messageOf Scenario.hi = JStr s
                           /\ JsString.len (JsString.trim s) < 5).
  { right. right. exists (js "hi"). split; [reflexivity | vm_compute; reflexivity]. }
  split; [exact H|].
  pose proof (C3_invalid_message_rejected ∅ Scenario.hangs 0 Scenario.hi H)
    as (Hr & _ & _ & _ & Hu & _).
  split; assumption.
Defined.

End Validation.

(** ** The catch block *)

Section Classification.

Import Handler Chat.

Lemma accepted_compare sdk env :
  startChatThrows sdk
    (sessionParams env []) = None ->
  accepted env sdk Scenario.compare
    (js "Compare my i5 CPU to requirements") [].
Proof.
  intros H. repeat split; first [exact H | vm_compute; reflexivity].
Qed.

(** C9: when the call fulfils before the deadline with a result that
    has no [response], the handler throws "Resposta inválida da API",
    which contains neither "Timeout" nor "invalid", and so answers 500
    with [success: false]. *)
Theorem C9_missing_response_is_500
    env sdk epoch payload userMessage contents d result :
  accepted env sdk payload userMessage contents ->
  completion sdk = Some (d, Fulfilled result) ->
  d < timeoutMs ->
  result ≫= response = None ->
  responses (post env sdk epoch payload)
    = [(d, errorResponse env invalidResponseError)]
  /\ caught (post env sdk epoch payload) = [invalidResponseError]
  /\ message invalidResponseError = js "Resposta inválida da API"
  /\ includes (message invalidResponseError) (js "Timeout") = false
  /\ includes (message invalidResponseError) (js "invalid") = false
  /\ status (errorResponse env invalidResponseError) = 500
  /\ getField "success" (body (errorResponse env invalidResponseError))
     = JBool false.
Proof.
  intros Hacc Hc Hd Hr.
  destruct (post_verdict env sdk epoch payload) as [Hresp Hlog].
  rewrite (verdict_accepted _ _ _ _ _ Hacc) in Hresp, Hlog.
  unfold raced in Hresp, Hlog. rewrite Hc in Hresp, Hlog.
  apply N.ltb_lt in Hd. rewrite Hd in Hresp, Hlog.
  unfold settled in Hresp, Hlog. rewrite Hr in Hresp, Hlog.
  repeat split; try assumption; vm_compute; reflexivity.
Qed.

Lemma C9_witness :
  accepted ∅ (Scenario.answersEmpty 800) Scenario.compare
    (js "Compare my i5 CPU to requirements") []
  /\ 800 < timeoutMs
  /\ responses (post ∅ (Scenario.answersEmpty 800) 0 Scenario.compare)
     = [(800, errorResponse ∅ invalidResponseError)]
  /\ status (errorResponse ∅ invalidResponseError) = 500.
Proof.
  assert (Hacc : accepted ∅ (Scenario.answersEmpty 800) Scenario.compare
                   (js "Compare my i5 CPU to requirements") [])
    by (apply accepted_compare; reflexivity).
  assert (Hd : 800 < timeoutMs) by (vm_compute; reflexivity).
  pose proof (C9_missing_response_is_500 ∅ (Scenario.answersEmpty 800) 0
                Scenario.compare _ _ 800 _ Hacc eq_refl Hd eq_refl)
    as (Hr & _ & _ & _ & _ & Hs & _).
  repeat split; assumption.
Defined.

(** C4: every failure that reaches the [catch] block is answered with
    exactly one status, 504 when its message contains "Timeout",
    otherwise 400 when it contains "invalid", otherwise 500; running
    the same request against the same stub at another time gives the
    same status. *)
Theorem C4_one_status_per_failure env sdk epoch payload e :
  e ∈ caught (post env sdk epoch payload) ->
  (exists t, responses (post env sdk epoch payload)
             = [(t, errorResponse env e)])
  /\ (includes (message e) (js "Timeout") = true ->
      status (errorResponse env e) = 504)
  /\ (includes (message e) (js "Timeout") = false ->
      includes (message e) (js "invalid") = true ->
      status (errorResponse env e) = 400)
  /\ (includes (message e) (js "Timeout") = false ->
      includes (message e) (js "invalid") = false ->
      status (errorResponse env e) = 500)
  /\ (forall epoch',
        (λ tr, status tr.2) <$> responses (post env sdk epoch' payload)
        = [status (errorResponse env e)]).
Proof.
  intros Hin.
  destruct (post_verdict env sdk epoch payload) as [Hresp Hlog].
  rewrite Hlog in Hin.
  destruct (verdict env sdk payload) as [|t e'|t txt r] eqn:Hv;
    cbn [logged] in Hin;
    try (apply elem_of_nil in Hin; destruct Hin).
  apply list_elem_of_singleton in Hin. subst e'.
  split; [exists t; exact Hresp|].
  cbn [status errorResponse]. unfold statusCode.
  repeat split.
  - intros ->. reflexivity.
  - intros -> ->. reflexivity.
  - intros -> ->. reflexivity.
  - intros epoch'.
    destruct (post_verdict env sdk epoch' payload) as [Hresp' _].
    rewrite Hresp', Hv. reflexivity.
Qed.

Lemma C4_witness :
  {| message := js "quota exceeded" |}
    ∈ caught (post ∅ (Scenario.fails 300 (js "quota exceeded")) 0
                Scenario.compare)
  /\ (λ tr, status tr.2)
       <$> responses (post ∅ (Scenario.fails 300 (js "quota exceeded")) 7
                        Scenario.compare)
     = [status (errorResponse ∅ {| message := js "quota exceeded" |})]
  /\ status (errorResponse ∅ {| message := js "quota exceeded" |}) = 500.
Proof.
  assert (Hin : {| message := js "quota exceeded" |}
                  ∈ caught (post ∅ (Scenario.fails 300 (js "quota exceeded"))
                              0 Scenario.compare)).
  { vm_compute. apply list_elem_of_here. }
  pose proof (C4_one_status_per_failure ∅ _ 0 Scenario.compare _ Hin)
    as (_ & _ & _ & H500 & Hdet).
  split; [exact Hin|]. split; [exact (Hdet 7)|].
  apply H500; vm_compute; reflexivity.
Defined.

End Classification.

(** ** Error detail *)

Section Detail.

Import Handler Chat.

Lemma details_of_error env e :
  getField "details" (body (errorResponse env e))
  = if isDevelopment env then JStr (message e) else JUndefined.
Proof.
  unfold errorResponse. cbn [body]. destruct (isDevelopment env); reflexivity.
Qed.

Lemma body_of_error_production env e :
  isDevelopment env = false ->
  body (errorResponse env e)
  = [("success"%string, JBool false); ("error"%string, JStr (errorText e))].
Proof. intros H. unfold errorResponse. rewrite H. reflexivity. Qed.

Lemma statusCode_504 e :
  statusCode e = 504 <-> includes (message e) (js "Timeout") = true.
Proof.
  unfold statusCode. destruct (includes (message e) (js "Timeout")).
  - tauto.
  - destruct (includes (message e) (js "invalid")); split; discriminate.
Qed.

(** The claim fails as stated: in development mode a timeout, which is
    answered 504 and not 500, carries the internal message as well. *)
Lemma C6_timeout_detail_in_development :
  let r := errorResponse Scenario.development timeoutError in
  responses (post Scenario.development Scenario.hangs 0 Scenario.compare)
    = [(timeoutMs, r)]
  /\ status r = 504
  /\ status r <> 500
  /\ getField "details" (body r) = JStr (js "Timeout na resposta da API").
Proof. vm_compute. repeat split; try reflexivity. discriminate. Qed.

(** C6, amended: a response carries [details] only in development
    mode, and then for every caught failure, whatever its status; the
    detail is the message of the caught error.  Outside development
    mode an error response consists of [success: false] and one of two
    fixed strings, chosen by whether the status is 504, so that two
    failures with the same status get the same response. *)
Theorem C6_details_only_in_development env sdk epoch payload t r :
  (t, r) ∈ responses (post env sdk epoch payload) ->
  (getField "details" (body r) <> JUndefined ->
     isDevelopment env = true
     /\ exists e, e ∈ caught (post env sdk epoch payload)
                  /\ getField "details" (body r) = JStr (message e))
  /\ (forall e, e ∈ caught (post env sdk epoch payload) ->
        r = errorResponse env e
        /\ (isDevelopment env = true ->
            getField "details" (body r) = JStr (message e))
        /\ (isDevelopment env = false ->
            body r = [("success"%string, JBool false);
                      ("error"%string, JStr (errorText e))])
        /\ (status r = 504 ->
            errorText e = js "Tempo de resposta excedido. Tente novamente.")
        /\ (status r <> 504 ->
            errorText e
            = js "Erro ao processar sua solicitação. Por favor, tente novamente."))
  /\ (forall e1 e2, isDevelopment env = false ->
        statusCode e1 = statusCode e2 ->
        errorResponse env e1 = errorResponse env e2).
Proof.
  intros Hin.
  destruct (post_verdict env sdk epoch payload) as [Hresp Hlog].
  rewrite Hresp in Hin. apply list_elem_of_singleton in Hin.
  rewrite Hlog. clear Hresp Hlog.
  split; [|split].
  - destruct (verdict env sdk payload) as [|t' e|t' txt resp];
      cbn [answer] in Hin; injection Hin as -> ->.
    + intros H. destruct H. reflexivity.
    + rewrite details_of_error. destruct (isDevelopment env); intros H.
      * split; [reflexivity|]. exists e. split; [apply list_elem_of_here | reflexivity].
      * destruct H. reflexivity.
    + intros H. destruct H. reflexivity.
  - intros e He.
    destruct (verdict env sdk payload) as [|t' e'|t' txt resp];
      cbn [logged] in He; try (apply elem_of_nil in He; destruct He).
    apply list_elem_of_singleton in He. subst e'.
    cbn [answer] in Hin. injection Hin as -> ->.
    split; [reflexivity|]. split; [|split; [|split]].
    + intros Hd. rewrite details_of_error, Hd. reflexivity.
    + apply body_of_error_production.
    + cbn [status errorResponse]. intros H. apply statusCode_504 in H.
      unfold errorText. rewrite H. reflexivity.
    + cbn [status errorResponse]. intros H. unfold errorText.
      destruct (includes (message e) (js "Timeout")) eqn:Ht; [|reflexivity].
      destruct H. apply statusCode_504. exact Ht.
  - intros e1 e2 Hd Hs. unfold errorResponse. rewrite Hd, Hs.
    assert (Ht : includes (message e1) (js "Timeout")
                 = includes (message e2) (js "Timeout")).
    { pose proof (statusCode_504 e1) as H1. pose proof (statusCode_504 e2) as H2.
      rewrite Hs in H1.
      destruct (includes (message e1) (js "Timeout")),
               (includes (message e2) (js "Timeout")); try reflexivity.
      - symmetry. apply H2, H1. reflexivity.
      - apply H1, H2. reflexivity. }
    unfold errorText. rewrite Ht. reflexivity.
Qed.

Lemma C6_witness :
  (timeoutMs, errorResponse Scenario.production timeoutError)
    ∈ responses (post Scenario.production Scenario.hangs 0 Scenario.compare)
  /\ body (errorResponse Scenario.production timeoutError)
     = [("success"%string, JBool false);
        ("error"%string, JStr (errorText timeoutError))].
Proof.
  assert (Hin : (timeoutMs, errorResponse Scenario.production timeoutError)
                  ∈ responses (post Scenario.production Scenario.hangs 0
                                 Scenario.compare)).
  { vm_compute. apply list_elem_of_here. }
  pose proof (C6_details_only_in_development _ _ _ _ _ _ Hin) as (_ & H & _).
  split; [exact Hin|].
  assert (He : timeoutError
                 ∈ caught (post Scenario.production Scenario.hangs 0
                             Scenario.compare)).
  { vm_compute. apply list_elem_of_here. }
  destruct (H timeoutError He) as (_ & _ & Hb & _).
  apply Hb. vm_compute. reflexivity.
Defined.

End Detail.

(** ** The success response *)

Section Success.

Import Handler Chat.

Lemma digit_fits n k : fits Digit (Builtins.digit n k) = true.
Proof.
  unfold fits, Builtins.digit.
  assert (H : (0 <= (n / 10 ^ k) mod 10 < 10)%Z) by (apply Z.mod_pos_bound; lia).
  apply andb_true_intro. split; [apply N.leb_le | apply N.leb_le]; lia.
Qed.

Lemma toISOString_iso tv : isIso8601 (Builtins.toISOString tv) = true.
Proof.
  unfold Builtins.toISOString.
  destruct (Builtins.civilFromDays (Z.of_N tv / Builtins.msPerDay)) as [[y m] d].
  unfold isIso8601, Builtins.isoYear, Builtins.pad2, Builtins.pad3.
  destruct ((0 <=? y)%Z && (y <=? 9999)%Z).
  - apply Bool.orb_true_iff. left.
    unfold Builtins.pad4, afterYear.
    cbn [matches app]. rewrite !digit_fits. reflexivity.
  - apply Bool.orb_true_iff. right.
    unfold Builtins.pad6, afterYear.
    cbn [matches app]. rewrite !digit_fits.
    destruct (y <? 0)%Z; reflexivity.
Qed.

Lemma modelName_set (env : gmap string jsstring) (m : jsstring) :
  env !! "GEMINI_MODEL"%string = Some m -> m <> [] -> modelName env = m.
Proof.
  intros H Hm. unfold modelName. rewrite H. destruct m; [destruct Hm|]; reflexivity.
Qed.

Lemma modelName_fallback (env : gmap string jsstring) :
  env !! "GEMINI_MODEL"%string = None
  \/ env !! "GEMINI_MODEL"%string = Some ([] : jsstring) ->
  modelName env = js "gemini-pro".
Proof. unfold modelName. intros [-> | ->]; reflexivity. Qed.

(** C7: a response with status 200 has [success: true] and a [data]
    object holding the text of the model's response, the ISO-8601
    rendering of the wall clock at the moment of the response, and the
    model identifier: the value of [GEMINI_MODEL], or "gemini-pro"
    when the variable is unset (or empty). *)
Theorem C7_success_envelope env sdk epoch payload t r :
  (t, r) ∈ responses (post env sdk epoch payload) ->
  status r = 200 ->
  (exists result resp responseText,
     completion sdk = Some (t, Fulfilled (Some result))
     /\ response result = Some resp
     /\ text resp = inr responseText
     /\ getProp "response" (getField "data" (body r)) = JStr responseText)
  /\ getField "success" (body r) = JBool true
  /\ getProp "timestamp" (getField "data" (body r))
     = JStr (Builtins.toISOString (epoch + t))
  /\ isIso8601 (Builtins.toISOString (epoch + t)) = true
  /\ getProp "model" (getField "data" (body r)) = JStr (modelName env)
  /\ (forall m, env !! "GEMINI_MODEL"%string = Some m -> m <> [] ->
                modelName env = m)
  /\ (env !! "GEMINI_MODEL"%string = None
      \/ env !! "GEMINI_MODEL"%string = Some ([] : jsstring) ->
      modelName env = js "gemini-pro").
Proof.
  intros Hin Hs.
  destruct (post_verdict env sdk epoch payload) as [Hresp _].
  rewrite Hresp in Hin. apply list_elem_of_singleton in Hin. symmetry in Hin.
  destruct (verdict_success _ _ _ _ _ _ Hin Hs)
    as (um & contents & result & resp & txt & _ & Hc & _ & Hr & Ht & ->).
  split; [exists result, resp, txt; repeat split; assumption|].
  repeat split; try reflexivity.
  - apply toISOString_iso.
  - apply modelName_set.
  - apply modelName_fallback.
Qed.

Lemma C7_witness :
  (1200, successResponse (js "✅ Compatível") (1700000000000 + 1200)
           (js "gemini-pro") Scenario.compatible)
    ∈ responses (post ∅ (Scenario.answers 1200 Scenario.compatible)
                   1700000000000 Scenario.compare)
  /\ getProp "timestamp"
       (getField "data"
          (body (successResponse (js "✅ Compatível") (1700000000000 + 1200)
                   (js "gemini-pro") Scenario.compatible)))
     = JStr (js "2023-11-14T22:13:21.200Z").
Proof.
  assert (Hin : (1200, successResponse (js "✅ Compatível")
                         (1700000000000 + 1200) (js "gemini-pro")
                         Scenario.compatible)
                  ∈ responses (post ∅ (Scenario.answers 1200 Scenario.compatible)
                                 1700000000000 Scenario.compare)).
  { vm_compute. apply list_elem_of_here. }
  pose proof (C7_success_envelope _ _ _ _ _ _ Hin eq_refl)
    as (_ & _ & Hts & _).
  split; [exact Hin|]. rewrite Hts. vm_compute. reflexivity.
Defined.

(** C10: in a response with status 200, [data.tokensUsed] is the
    [totalTokenCount] of the result's [usageMetadata] when that count
    exists and is not zero, and the string "N/A" otherwise. *)
Theorem C10_tokens_used env sdk epoch payload t r :
  (t, r) ∈ responses (post env sdk epoch payload) ->
  status r = 200 ->
  exists result resp,
    completion sdk = Some (t, Fulfilled (Some result))
    /\ response result = Some resp
    /\ (forall u n, usageMetadata resp = Some u ->
                    totalTokenCount u = Some n -> n <> 0%Z ->
          getProp "tokensUsed" (getField "data" (body r)) = JNum n)
    /\ (usageMetadata resp = None
        \/ (exists u, usageMetadata resp = Some u
                      /\ (totalTokenCount u = None
                          \/ totalTokenCount u = Some 0%Z)) ->
        getProp "tokensUsed" (getField "data" (body r)) = JStr (js "N/A")).
Proof.
  intros Hin Hs.
  destruct (post_verdict env sdk epoch payload) as [Hresp _].
  rewrite Hresp in Hin. apply list_elem_of_singleton in Hin. symmetry in Hin.
  destruct (verdict_success _ _ _ _ _ _ Hin Hs)
    as (um & contents & result & resp & txt & _ & Hc & _ & Hr & Ht & ->).
  exists result, resp. repeat split; try assumption.
  - intros u n Hu Hn Hz.
    change (tokensUsed resp = JNum n). unfold tokensUsed. rewrite Hu, Hn.
    apply Z.eqb_neq in Hz. rewrite Hz. reflexivity.
  - intros H. change (tokensUsed resp = JStr (js "N/A")). unfold tokensUsed.
    destruct H as [-> | (u & -> & [-> | ->])]; reflexivity.
Qed.

Lemma C10_witness :
  (1200, successResponse (js "✅ Compatível") 1200 (js "gemini-pro")
           Scenario.compatible)
    ∈ responses (post ∅ (Scenario.answers 1200 Scenario.compatible) 0
                   Scenario.compare)
  /\ getProp "tokensUsed"
       (getField "data"
          (body (successResponse (js "✅ Compatível") 1200 (js "gemini-pro")
                   Scenario.compatible)))
     = JNum 42.
Proof.
  assert (Hin : (1200, successResponse (js "✅ Compatível") 1200
                         (js "gemini-pro") Scenario.compatible)
                  ∈ responses (post ∅ (Scenario.answers 1200 Scenario.compatible)
                                 0 Scenario.compare)).
  { vm_compute. apply list_elem_of_here. }
  destruct (C10_tokens_used _ _ _ _ _ _ Hin eq_refl)
    as (result & resp & Hc & Hr & Hn & _).
  split; [exact Hin|].
  injection Hc as <-. injection Hr as <-.
  apply (Hn {| totalTokenCount := Some 42%Z |} 42%Z); [reflexivity | reflexivity | discriminate].
Defined.

End Success.

(** ** The deadline *)

Section Deadline.

Import Handler Chat EventLoop.

(** When the signal is ignored and the call is still pending at 15 s,
    the race is settled by its own timer: one call of [abort], then the
    timeout error, answered 504. *)
Lemma deadline_signal_ignored env sdk epoch payload userMessage contents :
  accepted env sdk payload userMessage contents ->
  pendingAtDeadline sdk ->
  onAbort sdk = None ->
  responses (post env sdk epoch payload)
    = [(timeoutMs, errorResponse env timeoutError)]
  /\ status (errorResponse env timeoutError) = 504
  /\ aborts (post env sdk epoch payload) = [timeoutMs]
  /\ fired (post env sdk epoch payload)
     = [(timeoutMs, 1%nat); (timeoutMs, 2%nat)].
Proof.
  intros Hacc Hp Ha. unfold post. rewrite (enter_accepted _ _ _ _ _ _ Hacc).
  pose proof (drain_deadline_ignored env sdk epoch userMessage
                (sessionParams env contents) Hp Ha) as H.
  observe H. repeat split; reflexivity.
Qed.

(** When the call honours the signal, [abort] runs first (its timer was
    created first, with the same delay), [sendMessage] rejects, and the
    race has settled with that error before its own timer runs. *)
Lemma deadline_signal_honoured
    env sdk epoch payload userMessage contents error :
  accepted env sdk payload userMessage contents ->
  pendingAtDeadline sdk ->
  onAbort sdk = Some error ->
  responses (post env sdk epoch payload)
    = [(timeoutMs, errorResponse env error)]
  /\ aborts (post env sdk epoch payload) = [timeoutMs]
  /\ fired (post env sdk epoch payload)
     = [(timeoutMs, 1%nat); (timeoutMs, 2%nat)].
Proof.
  intros Hacc Hp Ha. unfold post. rewrite (enter_accepted _ _ _ _ _ _ Hacc).
  pose proof (drain_deadline_honoured env sdk epoch userMessage
                (sessionParams env contents) error Hp Ha) as H.
  observe H. repeat split; reflexivity.
Qed.

(** C1: the claim asks for status 504 whenever the call has not
    settled within 15 s.  With a call that honours the abort signal the
    handler calls [abort] once at 15 s, but what it then catches is the
    abort error of [sendMessage], whose message does not contain
    "Timeout": the answer is 500 with the generic error text. *)
Theorem C1_abort_error_answered_500 :
  let l := post ∅ Scenario.hangsUntilAborted 0 Scenario.compare in
  let abortError := {| message := js "This operation was aborted" |} in
  completion Scenario.hangsUntilAborted = None
  /\ onAbort Scenario.hangsUntilAborted = Some abortError
  /\ responses l = [(timeoutMs, errorResponse ∅ abortError)]
  /\ caught l = [abortError]
  /\ status (errorResponse ∅ abortError) = 500
  /\ getField "error" (body (errorResponse ∅ abortError))
     = JStr (js "Erro ao processar sua solicitação. Por favor, tente novamente.")
  /\ aborts l = [timeoutMs].
Proof. vm_compute. repeat split; reflexivity. Qed.

(** The claim fails as stated: the call fulfils after 1.2 s, the
    response is sent then, and the timer of the race, which nothing
    clears, still fires at 15 s. *)
Lemma C2_race_timer_fires_after_response :
  let l := post ∅ (Scenario.answers 1200 Scenario.compatible) 0
             Scenario.compare in
  completion (Scenario.answers 1200 Scenario.compatible)
    = Some (1200, Fulfilled (Some {| response := Some Scenario.compatible |}))
  /\ fst <$> responses l = [1200]
  /\ cleared l = [(1200, 1%nat)]
  /\ fired l = [(timeoutMs, 2%nat)].
Proof. vm_compute. repeat split; reflexivity. Qed.

(** C2, amended: when the call settles before the deadline the handler
    answers once, at that moment, with the result or with the failure
    as classified by the [catch] block.  When the call fulfils,
    [timeout] is cleared at that moment and [abort] is never called,
    while the timer of the race stays armed and fires at 15 s, when it
    changes nothing.  After that nothing is left armed or in flight. *)
Theorem C2_settled_before_deadline
    env sdk epoch payload userMessage contents d s :
  accepted env sdk payload userMessage contents ->
  completion sdk = Some (d, s) ->
  d < timeoutMs ->
  (exists r, responses (post env sdk epoch payload) = [(d, r)])
  /\ (forall e, s = Rejected e ->
        responses (post env sdk epoch payload) = [(d, errorResponse env e)])
  /\ (forall result resp responseText,
        s = Fulfilled (Some result) ->
        response result = Some resp ->
        text resp = inr responseText ->
        responses (post env sdk epoch payload)
        = [(d, successResponse responseText (epoch + d) (modelName env) resp)])
  /\ (forall result, s = Fulfilled result ->
        cleared (post env sdk epoch payload) = [(d, 1%nat)]
        /\ aborts (post env sdk epoch payload) = []
        /\ fired (post env sdk epoch payload) = [(timeoutMs, 2%nat)])
  /\ timers (post env sdk epoch payload) = []
  /\ inflight (post env sdk epoch payload) = None.
Proof.
  intros Hacc Hc Hd.
  destruct (post_verdict env sdk epoch payload) as [Hresp _].
  rewrite (verdict_accepted _ _ _ _ _ Hacc) in Hresp.
  unfold raced in Hresp. rewrite Hc in Hresp.
  pose proof Hd as Hlt. apply N.ltb_lt in Hlt. rewrite Hlt in Hresp.
  split; [|split; [|split; [|split]]].
  - rewrite Hresp. unfold settled.
    destruct s as [result|e]; [|eexists; reflexivity].
    destruct (result ≫= response) as [resp|]; [|eexists; reflexivity].
    destruct (text resp); eexists; reflexivity.
  - intros e ->. exact Hresp.
  - intros result resp txt -> Hr Ht. rewrite Hresp. unfold settled.
    cbn [mbind option_bind]. rewrite Hr, Ht. reflexivity.
  - intros result ->. unfold post. rewrite (enter_accepted _ _ _ _ _ _ Hacc).
    pose proof (drain_fulfilled_early env sdk epoch userMessage
                  (sessionParams env contents) d result Hc Hd) as H.
    observe H.
    destruct (result ≫= response) as [resp|]; [destruct (text resp)|];
      repeat split; reflexivity.
  - apply idle_nothing_pending. unfold post. apply drain_idle.
Qed.

Lemma C2_witness :
  accepted ∅ (Scenario.answers 1200 Scenario.compatible) Scenario.compare
    (js "Compare my i5 CPU to requirements") []
  /\ 1200 < timeoutMs
  /\ responses (post ∅ (Scenario.answers 1200 Scenario.compatible) 0
                  Scenario.compare)
     = [(1200, successResponse (js "✅ Compatível") (0 + 1200)
                 (modelName ∅) Scenario.compatible)]
  /\ aborts (post ∅ (Scenario.answers 1200 Scenario.compatible) 0
               Scenario.compare) = [].
Proof.
  assert (Hacc : accepted ∅ (Scenario.answers 1200 Scenario.compatible)
                   Scenario.compare
                   (js "Compare my i5 CPU to requirements") [])
    by (apply accepted_compare; reflexivity).
  assert (Hd : 1200 < timeoutMs) by (vm_compute; reflexivity).
  pose proof (C2_settled_before_deadline ∅
                (Scenario.answers 1200 Scenario.compatible) 0
                Scenario.compare _ _ 1200 _ Hacc eq_refl Hd)
    as (_ & _ & Hok & Htimers & _).
  split; [exact Hacc|]. split; [exact Hd|]. split.
  - apply (Hok _ _ _ eq_refl eq_refl eq_refl).
  - apply (Htimers _ eq_refl).
Defined.

End Deadline.

(** ** The server *)

Section Routing.

Import Handler Chat Limiter Server.

Lemma chatRoute_cases env store r :
  (chatRoute env store r).2 = refused
  \/ (chatRoute env store r).2
     = post env (upstream r) (arrival r) (reqBody r).
Proof.
  unfold chatRoute, refused. cbn [snd].
  destruct (exceeded (maxRequests env)
              (hit store (client r) (arrival r))); tauto.
Qed.

Lemma serveAll_cons env store r rest :
  serveAll env store (r :: rest)
  = ((serveAll env (chatRoute env store r).1 rest).1,
     (chatRoute env store r).2
       :: (serveAll env (chatRoute env store r).1 rest).2).
Proof.
  cbn [serveAll]. destruct (chatRoute env store r) as [store1 l].
  cbn [fst snd]. destruct (serveAll env store1 rest). reflexivity.
Qed.

(** Every loop the server produces is either the limiter's refusal or
    a run of the handler on one of the requests. *)
Lemma serveAll_loops env store reqs l :
  l ∈ (serveAll env store reqs).2 ->
  l = refused
  \/ exists r, r ∈ reqs /\ l = post env (upstream r) (arrival r) (reqBody r).
Proof.
  revert store. induction reqs as [|r rest IH]; intros store.
  - cbn. intros H. apply elem_of_nil in H. destruct H.
  - rewrite serveAll_cons. cbn [snd]. intros H.
    apply elem_of_cons in H. destruct H as [-> | H].
    + destruct (chatRoute_cases env store r) as [-> | ->]; [tauto|].
      right. exists r. split; [apply list_elem_of_here | reflexivity].
    + destruct (IH _ H) as [-> | (q & Hq & ->)]; [tauto|].
      right. exists q. split; [apply list_elem_of_further, Hq | reflexivity].
Qed.

End Routing.

(** ** Numbers *)

Section Numbers.

Import Builtins.

(** The Number for an integer is a significand of at most 53 bits times
    a power of two, the integer itself up to 2^53, and no farther from
    the integer than half that power of two. *)
Lemma roundInteger_nearest n v :
  roundInteger n = Some v ->
  exists m e,
    v = m * 2 ^ e /\ m <= 2 ^ 53 /\ (n <= 2 ^ 53 -> v = n)
    /\ 2 * n <= 2 * v + 2 ^ e /\ 2 * v <= 2 * n + 2 ^ e.
Proof.
  unfold roundInteger, maxExact.
  destruct (N.leb_spec n (2 ^ 53)) as [Hle | Hgt].
  - intros [= <-]. exists n, 0. rewrite N.pow_0_r. lia.
  - set (e := N.log2 n - 52).
    assert (Hn : 0 < n) by lia.
    destruct (N.log2_spec n Hn) as [Hlo Hhi].
    assert (Hlog : 53 <= N.log2 n).
    { rewrite <- (N.log2_pow2 53) by lia. apply N.log2_le_mono. lia. }
    assert (He : N.log2 n = 52 + e) by (unfold e; lia).
    assert (He1 : e = 1 + (e - 1)) by (unfold e; lia).
    rewrite N.shiftr_div_pow2, !N.shiftl_mul_pow2, N.mul_1_l.
    rewrite He, N.pow_add_r in Hlo.
    replace (N.succ (N.log2 n)) with (53 + e) in Hhi by lia.
    rewrite N.pow_add_r in Hhi.
    assert (Hhalf : 2 ^ e = 2 * 2 ^ (e - 1)).
    { rewrite He1 at 1. rewrite N.pow_add_r. reflexivity. }
    assert (Hpos : 0 < 2 ^ (e - 1)) by (apply N.neq_0_lt_0, N.pow_nonzero; lia).
    set (P := 2 ^ e) in *. set (half := 2 ^ (e - 1)) in *.
    assert (HP : P <> 0) by lia.
    pose proof (N.div_mod n P HP) as Hdm.
    pose proof (N.mod_lt n P HP) as Hr.
    set (m := n / P) in *. set (r := n mod P) in *.
    assert (Hm : m < 2 ^ 53) by nia.
    assert (Hsub : n - m * P = r) by lia.
    rewrite Hsub.
    destruct ((half <? r) || ((r =? half) && N.odd m)) eqn:Hround.
    + destruct (_ <? 2 ^ 1024); [|discriminate]. intros [= <-].
      exists (m + 1), e. fold P.
      apply orb_true_iff in Hround.
      assert (half <= r).
      { destruct Hround as [H | H].
        - apply N.ltb_lt in H. lia.
        - apply andb_true_iff in H. destruct H as [H _].
          apply N.eqb_eq in H. lia. }
      repeat split; try lia.
    + destruct (_ <? 2 ^ 1024); [|discriminate]. intros [= <-].
      exists m, e. fold P.
      apply orb_false_iff in Hround. destruct Hround as [H _].
      apply N.ltb_ge in H.
      repeat split; try lia.
Qed.

Example parseInt_rounds :
  parseInt (js "9007199254740993") = Int 9007199254740992
  /\ parseInt (js "-0x20000000000003") = Int (-9007199254740996)
  /\ parseInt (js "1e400") = Int 1
  /\ parseInt (replicate 310 57) = Infinity false.
Proof. vm_compute. repeat split. Qed.

(** An integer below 2^53 is its own Number. *)
Lemma floorOfNearest_integer n :
  n < 2 ^ 53 -> floorOfNearest n 1 = Some n.
Proof.
  intros Hn. unfold floorOfNearest.
  destruct (N.ltb_spec (2 * n) 1) as [H0 | H1]; [f_equal; lia|].
  assert (Hlt : (n <? 1) = false) by (apply N.ltb_ge; lia).
  rewrite Hlt, N.div_1_r.
  assert (Hlog : N.log2 n <= 52).
  { destruct (N.le_gt_cases (N.log2 n) 52) as [H | H]; [exact H|].
    assert (53 <= N.log2 n) by lia.
    assert (Hpos : 0 < n) by lia.
    destruct (N.log2_spec n Hpos) as [Hlo _].
    assert (2 ^ 53 <= 2 ^ N.log2 n) by (apply N.pow_le_mono_r; lia). lia. }
  destruct (Z.leb_spec 0 (Z.of_N (N.log2 n) - 52)) as [He | He].
  - assert (E : Z.to_N (Z.of_N (N.log2 n) - 52) = 0) by lia.
    rewrite E, N.pow_0_r, !N.mul_1_r, N.div_1_r, N.mod_1_r.
    change (1 <? 2 * 0) with false. change (2 * 0 =? 1) with false.
    cbv beta iota zeta delta [orb andb].
    assert (Hv : (n <? 2 ^ 1024) = true).
    { apply N.ltb_lt. eapply N.lt_trans; [exact Hn|]. reflexivity. }
    rewrite Hv. reflexivity.
  - rewrite N.div_1_r, N.mod_1_r.
    change (1 <? 2 * 0) with false. change (2 * 0 =? 1) with false.
    cbv beta iota zeta delta [orb andb]. rewrite N.div_mul; [reflexivity|].
    apply N.pow_nonzero. lia.
Qed.

Lemma digit_cases c :
  isDecimalDigit c = true ->
  c = 48 \/ c = 49 \/ c = 50 \/ c = 51 \/ c = 52 \/ c = 53 \/ c = 54
  \/ c = 55 \/ c = 56 \/ c = 57.
Proof.
  unfold isDecimalDigit. intros H. apply andb_true_iff in H.
  destruct H as [H1 H2]. apply N.leb_le in H1, H2. lia.
Qed.

Lemma digit_not_space c :
  isDecimalDigit c = true -> JsString.isWhiteSpace c = false.
Proof.
  intros H. destruct (digit_cases c H) as [-> | [-> | [-> | [-> | [-> | [-> | [-> | [-> | [-> | ->]]]]]]]]]; reflexivity.
Qed.

Lemma trimStart_digits s :
  forallb isDecimalDigit s = true -> JsString.trimStart s = s.
Proof.
  destruct s as [|c s]; [reflexivity|]. cbn [forallb JsString.trimStart].
  intros H. apply andb_true_iff in H. destruct H as [H _].
  rewrite (digit_not_space c H). reflexivity.
Qed.

Lemma trim_digits s :
  forallb isDecimalDigit s = true -> JsString.trim s = s.
Proof.
  intros H. unfold JsString.trim, JsString.trimEnd.
  rewrite (trimStart_digits s H), trimStart_digits.
  - apply rev_involutive.
  - rewrite forallb_forall in *. intros c Hc. apply H, in_rev, Hc.
Qed.

Lemma readDecimalDigits_digits s :
  forallb isDecimalDigit s = true ->
  readDecimalDigits s = ((λ c, c - 48) <$> s, []).
Proof.
  induction s as [|c s IH]; [reflexivity|].
  cbn [forallb readDecimalDigits]. intros H.
  apply andb_true_iff in H. destruct H as [Hc Hs].
  rewrite Hc, (IH Hs). reflexivity.
Qed.

(** A plain decimal numeral below 2^53 stands for itself. *)
Lemma greatestNotAbove_numeral s :
  s <> [] ->
  forallb isDecimalDigit s = true ->
  valueOfDigits ((λ c, c - 48) <$> s) < 2 ^ 53 ->
  greatestNotAbove s = Some (valueOfDigits ((λ c, c - 48) <$> s)).
Proof.
  intros Hne Hd Hv. unfold greatestNotAbove.
  assert (Hs : stringValue s
               = Decimal false (valueOfDigits ((λ c, c - 48) <$> s)) 0).
  { unfold stringValue. rewrite (trim_digits s Hd).
    assert (Hdec : (let (negative, s') := stripSign s in
                    unsignedDecimal negative s')
                   = Decimal false (valueOfDigits ((λ c, c - 48) <$> s)) 0).
    { destruct s as [|c0 rest]; [destruct Hne; reflexivity|].
      assert (Hc0 : isDecimalDigit c0 = true).
      { cbn [forallb] in Hd. apply andb_true_iff in Hd. tauto. }
      assert (Hsign : stripSign (c0 :: rest) = (false, c0 :: rest)).
      { destruct (digit_cases c0 Hc0) as [-> | [-> | [-> | [-> | [-> | [-> | [-> | [-> | [-> | ->]]]]]]]]]; reflexivity. }
      rewrite Hsign. unfold unsignedDecimal.
      assert (Hinf : JsString.eqb (c0 :: rest) (js "Infinity") = false).
      { destruct (digit_cases c0 Hc0) as [-> | [-> | [-> | [-> | [-> | [-> | [-> | [-> | [-> | ->]]]]]]]]]; reflexivity. }
      rewrite Hinf, (readDecimalDigits_digits _ Hd).
      rewrite app_nil_r. cbn [fmap list_fmap exponentPart length].
      reflexivity. }
    destruct s as [|c0 [|c1 rest]]; [destruct Hne; reflexivity| |].
    - destruct (digit_cases c0) as [-> | [-> | [-> | [-> | [-> | [-> | [-> | [-> | [-> | ->]]]]]]]]];
        [cbn [forallb] in Hd; apply andb_true_iff in Hd; tauto | ..];
        exact Hdec.
    - assert (Hc1 : isDecimalDigit c1 = true).
      { cbn [forallb] in Hd. apply andb_true_iff in Hd. destruct Hd as [_ Hd].
        apply andb_true_iff in Hd. tauto. }
      destruct (digit_cases c0) as [-> | [-> | [-> | [-> | [-> | [-> | [-> | [-> | [-> | ->]]]]]]]]];
        [cbn [forallb] in Hd; apply andb_true_iff in Hd; tauto | ..];
        try exact Hdec.
      destruct (digit_cases c1 Hc1) as [-> | [-> | [-> | [-> | [-> | [-> | [-> | [-> | [-> | ->]]]]]]]]];
        exact Hdec. }
  rewrite Hs. change (0 <=? 0)%Z with true. cbv iota.
  change (Z.to_N 0) with 0. rewrite N.pow_0_r, N.mul_1_r.
  apply floorOfNearest_integer, Hv.
Qed.

(** The quota of a plain numeral in [API_LIMIT] is its value. *)
Lemma maxRequests_numeral (env : gmap string jsstring) s :
  env !! "API_LIMIT"%string = Some s ->
  s <> [] ->
  forallb isDecimalDigit s = true ->
  valueOfDigits ((λ c, c - 48) <$> s) < 2 ^ 53 ->
  Server.maxRequests env = Some (valueOfDigits ((λ c, c - 48) <$> s)).
Proof.
  intros He Hne Hd Hv. unfold Server.maxRequests, Server.API_REQUEST_LIMIT.
  rewrite He. destruct s as [|c r]; [destruct Hne; reflexivity|].
  apply greatestNotAbove_numeral; assumption.
Qed.

Example maxRequests_coerced :
  Server.maxRequests {[ "API_LIMIT"%string := js " 2 " ]} = Some 2
  /\ Server.maxRequests {[ "API_LIMIT"%string := js "1e0" ]} = Some 1
  /\ Server.maxRequests {[ "API_LIMIT"%string := js "2.5" ]} = Some 2
  /\ Server.maxRequests {[ "API_LIMIT"%string := js "-1" ]} = Some 0
  /\ Server.maxRequests {[ "API_LIMIT"%string := js "0x10" ]} = Some 16
  /\ Server.maxRequests {[ "API_LIMIT"%string := js "many" ]} = None
  /\ Server.maxRequests {[ "API_LIMIT"%string := js "Infinity" ]} = None.
Proof. vm_compute. repeat split. Qed.

End Numbers.

(** ** The generation configuration *)

Section Generation.

Import Handler Chat Server.

(** The claim fails as stated: with [MAX_TOKENS=-5] the session is
    opened with [maxOutputTokens] equal to -5. *)
Lemma C8_negative_max_tokens :
  (λ p, maxOutputTokens (generationConfig p))
    <$> sessions (post (maxTokensEnv (js "-5"))
                    (Scenario.answers 1200 Scenario.compatible) 0
                    Scenario.compare)
  = [Int (-5)].
Proof. vm_compute. reflexivity. Qed.

(** C8, amended: whatever requests came before, every session is
    opened with the configuration computed from the environment alone:
    [temperature] is 0.7, and [maxOutputTokens] is the number that
    [parseInt] reads from [MAX_TOKENS] unless that is [NaN] or zero,
    in which case it is 1000 (so for a variable that is unset, not a
    number, or zero).  It is never [NaN] nor zero, and it is a positive
    integer exactly when [parseInt] reads no negative number and no
    infinity, which is what it gives for a numeral past the range of
    Numbers. *)
Theorem C8_generation_config env store reqs l p :
  l ∈ (serveAll env store reqs).2 ->
  p ∈ sessions l ->
  let parsed :=
    Builtins.parseInt (Builtins.envToString (env !! "MAX_TOKENS"%string)) in
  generationConfig p = buildGenerationConfig env
  /\ temperature (generationConfig p) = (7 # 10)%Q
  /\ maxOutputTokens (generationConfig p) <> NaN
  /\ maxOutputTokens (generationConfig p) <> Int 0
  /\ (env !! "MAX_TOKENS"%string = None ->
      maxOutputTokens (generationConfig p) = Int 1000)
  /\ (parsed = NaN \/ parsed = Int 0 ->
      maxOutputTokens (generationConfig p) = Int 1000)
  /\ (parsed <> NaN -> parsed <> Int 0 ->
      maxOutputTokens (generationConfig p) = parsed)
  /\ ((exists z, maxOutputTokens (generationConfig p) = Int z /\ (0 < z)%Z)
      <-> parsed = NaN \/ exists z, parsed = Int z /\ (0 <= z)%Z).
Proof.
  intros Hl Hp parsed.
  assert (Hg : generationConfig p = buildGenerationConfig env).
  { destruct (serveAll_loops _ _ _ _ Hl) as [-> | (r & _ & ->)].
    - cbn in Hp. apply elem_of_nil in Hp. destruct Hp.
    - destruct (post_sessions _ _ _ _ _ Hp) as [contents ->]. reflexivity. }
  rewrite Hg. unfold buildGenerationConfig.
  cbn [maxOutputTokens temperature]. fold parsed.
  split; [reflexivity|]. split; [reflexivity|].
  assert (Hunset : env !! "MAX_TOKENS"%string = None -> parsed = NaN).
  { intros H. unfold parsed. rewrite H. vm_compute. reflexivity. }
  unfold Builtins.numberOr.
  destruct parsed as [|z|negative] eqn:Hparsed.
  - repeat split; try discriminate; try reflexivity.
    + intros H. destruct H. reflexivity.
    + intros _. left. reflexivity.
    + intros _. exists 1000%Z. split; [reflexivity | lia].
  - destruct (Z.eqb_spec z 0) as [-> | Hz].
    + repeat split; try discriminate; try reflexivity.
      * intros _ H. destruct H. reflexivity.
      * intros _. right. exists 0%Z. split; [reflexivity | lia].
      * intros _. exists 1000%Z. split; [reflexivity | lia].
    + repeat split; try discriminate; try reflexivity.
      * intros [= H]. destruct Hz. exact H.
      * intros H. specialize (Hunset H). discriminate.
      * intros [H | [= H]]; [discriminate | destruct Hz; exact H].
      * intros (z' & [= <-] & Hpos). right. exists z. split; [reflexivity | lia].
      * intros [H | (z' & [= <-] & Hpos)]; [discriminate|].
        exists z. split; [reflexivity | lia].
  - repeat split; try discriminate; try reflexivity.
    + intros H. specialize (Hunset H). discriminate.
    + intros [H | H]; discriminate.
    + intros (z & H & _). discriminate.
    + intros [H | (z & H & _)]; discriminate.
Qed.

Lemma C8_witness :
  let r := {| client := "10.0.0.7"; arrival := 0;
              reqBody := Scenario.compare;
              upstream := Scenario.answers 1200 Scenario.compatible |} in
  post ∅ (upstream r) (arrival r) (reqBody r) ∈ (serveAll ∅ ∅ [r]).2
  /\ sessionParams ∅ [] ∈ sessions (post ∅ (upstream r) (arrival r) (reqBody r))
  /\ maxOutputTokens (generationConfig (sessionParams ∅ [])) = Int 1000.
Proof.
  cbn zeta.
  set (r := {| client := "10.0.0.7"; arrival := 0;
               reqBody := Scenario.compare;
               upstream := Scenario.answers 1200 Scenario.compatible |}).
  assert (Hl : post ∅ (upstream r) (arrival r) (reqBody r)
                 ∈ (serveAll ∅ ∅ [r]).2).
  { rewrite serveAll_cons. cbn [snd serveAll].
    replace ((chatRoute ∅ ∅ r).2)
      with (post ∅ (upstream r) (arrival r) (reqBody r))
      by (unfold chatRoute; cbn [snd]; reflexivity).
    apply list_elem_of_here. }
  assert (Hp : sessionParams ∅ []
                 ∈ sessions (post ∅ (upstream r) (arrival r) (reqBody r))).
  { vm_compute. apply list_elem_of_here. }
  pose proof (C8_generation_config ∅ ∅ [r] _ _ Hl Hp)
    as (_ & _ & _ & _ & H & _).
  split; [exact Hl|]. split; [exact Hp|]. apply H. reflexivity.
Defined.

End Generation.

(** ** The quota *)

Section Quota.

Import Handler Chat Limiter Server.

Variables (env : gmap string jsstring) (k : string) (t0 : N).





End Quota.


(** * The rest of the server: properties *)

Section SetupFacts.

Import Handler Chat Setup.

Lemma split_nonempty sep s : split sep s <> [].
Proof.
  destruct s as [|c r]; cbn [split]; [discriminate|].
  destruct (c =? sep); [discriminate|].
  destruct (split sep r); discriminate.
Qed.

Lemma join_split sep s : join sep (split sep s) = s.
Proof.
  induction s as [|c r IH]; [reflexivity|]. cbn [split].
  destruct (N.eqb_spec c sep) as [-> | Hc].
  - pose proof (split_nonempty sep r) as Hne.
    destruct (split sep r) as [|p ps] eqn:E; [destruct Hne; reflexivity|].
    cbn [join app]. rewrite <- IH. reflexivity.
  - pose proof (split_nonempty sep r) as Hne.
    destruct (split sep r) as [|p ps] eqn:E; [destruct Hne; reflexivity|].
    rewrite <- IH. destruct ps; reflexivity.
Qed.

Lemma split_pieces sep s : Forall (λ piece, sep ∉ piece) (split sep s).
Proof.
  induction s as [|c r IH]; cbn [split].
  - constructor; [apply not_elem_of_nil | constructor].
  - destruct (N.eqb_spec c sep) as [-> | Hc].
    + constructor; [apply not_elem_of_nil | exact IH].
    + destruct (split sep r) as [|p ps]; [constructor; [|constructor]|].
      * intros H. apply list_elem_of_singleton in H. congruence.
      * inversion IH as [|? ? Hp Hps]; subst. constructor; [|exact Hps].
        intros H. apply elem_of_cons in H. destruct H; [congruence | tauto].
Qed.

(** X1: the CORS origin list is the whole of [ALLOWED_ORIGINS] cut at
    its commas: joining the pieces with commas gives the variable back,
    so nothing is trimmed or dropped and no piece contains a comma.  The
    wildcard is used only when the variable is unset; a variable that is
    set, even to the empty string, gives a non-empty list. *)
Theorem X1_cors_origins (env : gmap string jsstring) :
  (corsOrigin env = AnyOrigin <-> env !! "ALLOWED_ORIGINS"%string = None)
  /\ (forall s, env !! "ALLOWED_ORIGINS"%string = Some s ->
        exists allowed,
          corsOrigin env = Origins allowed
          /\ allowed <> []
          /\ join 44 allowed = s
          /\ Forall (λ origin, 44 ∉ origin) allowed).
Proof.
  unfold corsOrigin. split.
  - destruct (env !! "ALLOWED_ORIGINS"%string); split; congruence.
  - intros s ->. exists (split 44 s).
    split; [reflexivity|]. split; [apply split_nonempty|].
    split; [apply join_split | apply split_pieces].
Qed.

Lemma eqb_eq (a b : jsstring) : JsString.eqb a b = true <-> a = b.
Proof.
  revert b. induction a as [|c a IH]; intros [|d b]; cbn [JsString.eqb];
    try (split; [discriminate | congruence]); [tauto|].
  rewrite Bool.andb_true_iff, N.eqb_eq, IH. split; [intros [-> ->]; reflexivity|].
  intros [= -> ->]. tauto.
Qed.

Lemma endsWith_spec s suffix :
  endsWith s suffix = true <-> exists stem, s = stem ++ suffix.
Proof.
  unfold endsWith. rewrite Bool.andb_true_iff, Nat.leb_le, eqb_eq. split.
  - intros [Hlen Hdrop]. exists (take (length s - length suffix) s).
    rewrite <- Hdrop at 2. symmetry. apply take_drop.
  - intros [stem ->]. rewrite length_app. split; [lia|].
    replace (length stem + length suffix - length suffix)%nat
      with (length stem) by lia.
    apply drop_app_length.
Qed.

(** X2: a static file gets the one-year [Cache-Control] header exactly
    when its path ends in [.css] or [.js], compared code unit by code
    unit; for every other path the callback sets no header at all. *)
Theorem X2_static_cache_header path :
  (setHeaders path
   = [("Cache-Control"%string, js "public, max-age=31536000")]
   <-> exists stem, path = stem ++ js ".css" \/ path = stem ++ js ".js")
  /\ (setHeaders path = []
      <-> ~ exists stem, path = stem ++ js ".css" \/ path = stem ++ js ".js").
Proof.
  assert (H : endsWith path (js ".css") || endsWith path (js ".js") = true
              <-> exists stem, path = stem ++ js ".css" \/ path = stem ++ js ".js").
  { rewrite Bool.orb_true_iff, !endsWith_spec. split.
    - intros [[stem ->] | [stem ->]]; exists stem; tauto.
    - intros [stem [-> | ->]]; [left | right]; exists stem; reflexivity. }
  unfold setHeaders.
  destruct (endsWith path (js ".css") || endsWith path (js ".js")).
  - split; split.
    + intros _. apply H. reflexivity.
    + reflexivity.
    + discriminate.
    + intros Hn. destruct Hn. apply H. reflexivity.
  - split; split.
    + discriminate.
    + intros Hs. apply H in Hs. discriminate.
    + intros _ Hs. apply H in Hs. discriminate.
    + reflexivity.
Qed.

(** X3: the health route reports the environment as "development"
    exactly when [NODE_ENV] is "development", unset or empty.  With
    [NODE_ENV] unset it therefore says "development" although the chat
    handler, which compares with the literal, sends no [details]. *)
Theorem X3_health_environment (env : gmap string jsstring) now :
  (getField "environment" (body (health env now)) = JStr (js "development")
   <-> isDevelopment env = true
       \/ env !! "NODE_ENV"%string = None
       \/ env !! "NODE_ENV"%string = Some ([] : jsstring))
  /\ (env !! "NODE_ENV"%string = None ->
      getField "environment" (body (health env now)) = JStr (js "development")
      /\ forall e, getField "details" (body (errorResponse env e)) = JUndefined).
Proof.
  assert (Hf : getField "environment" (body (health env now))
               = JStr (Builtins.stringOr (env !! "NODE_ENV"%string)
                         (js "development"))) by reflexivity.
  rewrite Hf. unfold isDevelopment. split.
  - destruct (env !! "NODE_ENV"%string) as [[|c r]|] eqn:E;
      cbn [Builtins.stringOr].
    + split; [tauto | reflexivity].
    + split.
      * intros H. left. apply eqb_eq.
        exact (f_equal (λ v, match v with JStr t => t | _ => [] end) H).
      * intros [H | [H | H]]; try discriminate.
        apply eqb_eq in H. rewrite H. reflexivity.
    + split; [tauto | reflexivity].
  - intros H. split; [rewrite H; reflexivity|].
    intros e. rewrite details_of_error. unfold isDevelopment. rewrite H.
    reflexivity.
Qed.

(** X4: the health route reports [maxTokens] as the raw text of
    [MAX_TOKENS], and as the number 1000 only when the variable is unset
    or empty.  The chat handler reads the same variable with [parseInt]:
    when that gives [NaN] or zero the handler works with 1000 while the
    health route still shows the text. *)
Theorem X4_health_max_tokens (env : gmap string jsstring) now :
  getProp "maxTokens" (getField "limits" (body (health env now)))
  = reportedMaxTokens env
  /\ (reportedMaxTokens env = JNum 1000
      <-> env !! "MAX_TOKENS"%string = None
          \/ env !! "MAX_TOKENS"%string = Some ([] : jsstring))
  /\ (reportedMaxTokens env = JNum 1000 ->
      maxOutputTokens (buildGenerationConfig env) = Int 1000)
  /\ (forall s, reportedMaxTokens env = JStr s ->
        env !! "MAX_TOKENS"%string = Some s
        /\ maxOutputTokens (buildGenerationConfig env)
           = Builtins.numberOr (Builtins.parseInt s) 1000
        /\ (Builtins.parseInt s = NaN \/ Builtins.parseInt s = Int 0 ->
            maxOutputTokens (buildGenerationConfig env) = Int 1000)).
Proof.
  split; [reflexivity|].
  unfold reportedMaxTokens, buildGenerationConfig. cbn [maxOutputTokens].
  destruct (env !! "MAX_TOKENS"%string) as [[|c r]|] eqn:E.
  - repeat split; try tauto; try discriminate.
  - repeat split; try discriminate.
    + intros [H | H]; discriminate.
    + injection H as <-. reflexivity.
    + injection H as <-. reflexivity.
    + injection H as <-.
      change (Builtins.envToString (Some (c :: r))) with (c :: r).
      intros [-> | ->]; reflexivity.
  - repeat split; try tauto; try discriminate.
Qed.

End SetupFacts.

(** * More on the chat handler *)

Section HandlerFacts.

Import Handler Chat EventLoop.

(** X5: whatever the body and whatever the SDK does, the handler sends
    exactly one response, with status 200, 400, 500 or 504, and sends it
    no later than 15 s after it was entered; when the run is over no
    timer is armed and no completion is still to be delivered, so nothing
    answers a second time, not even a result that arrives after the
    deadline. *)
Theorem X5_exactly_one_response env sdk epoch payload :
  (exists t r,
     responses (post env sdk epoch payload) = [(t, r)]
     /\ t <= timeoutMs
     /\ (status r = 200 \/ status r = 400 \/ status r = 500
         \/ status r = 504))
  /\ timers (post env sdk epoch payload) = []
  /\ inflight (post env sdk epoch payload) = None.
Proof.
  split; [|apply idle_nothing_pending; unfold post; apply drain_idle].
  destruct (post_verdict env sdk epoch payload) as [-> _].
  assert (Herr : forall e, status (errorResponse env e) = 200
                           \/ status (errorResponse env e) = 400
                           \/ status (errorResponse env e) = 500
                           \/ status (errorResponse env e) = 504).
  { intros e. cbn [status errorResponse].
    destruct (statusCode_cases e) as [-> | [-> | ->]]; tauto. }
  assert (Hdl : timeoutMs <= timeoutMs) by lia.
  assert (H0 : 0 <= timeoutMs) by lia.
  unfold verdict.
  destruct (invalidMessage (messageOf payload)).
  { eexists _, _. split; [reflexivity|]. split; [exact H0 | right; left; reflexivity]. }
  destruct (mapHistory (chatHistoryOf payload)) as [e|contents].
  { eexists _, _. split; [reflexivity|]. split; [exact H0 | apply Herr]. }
  destruct (startChatThrows sdk (sessionParams env contents)) as [e|].
  { eexists _, _. split; [reflexivity|]. split; [exact H0 | apply Herr]. }
  unfold raced, deadline.
  destruct (completion sdk) as [[d s]|].
  - destruct (N.ltb_spec d timeoutMs) as [Hd|Hd].
    + assert (Hle : d <= timeoutMs) by lia. unfold settled.
      destruct s as [result|e].
      * destruct (result ≫= response) as [r|].
        -- destruct (text r) as [e|txt].
           ++ eexists _, _. split; [reflexivity|]. split; [exact Hle | apply Herr].
           ++ eexists _, _. split; [reflexivity|].
              split; [exact Hle | left; reflexivity].
        -- eexists _, _. split; [reflexivity|]. split; [exact Hle | apply Herr].
      * eexists _, _. split; [reflexivity|]. split; [exact Hle | apply Herr].
    + eexists _, _. split; [reflexivity|]. split; [exact Hdl | apply Herr].
  - eexists _, _. split; [reflexivity|]. split; [exact Hdl | apply Herr].
Qed.

Lemma invalidMessage_valid s :
  5 <= JsString.len (JsString.trim s) -> invalidMessage (JStr s) = false.
Proof.
  intros H. unfold invalidMessage. cbn [typeOf isStringType negb truthy].
  assert (Hs : JsString.len s <> 0).
  { intros H0. unfold JsString.len in H0.
    destruct s; [|discriminate]. vm_compute in H. destruct H. reflexivity. }
  apply N.eqb_neq in Hs. rewrite Hs.
  assert (Ht : (JsString.len (JsString.trim s) <? 5) = false)
    by (apply N.ltb_ge; exact H).
  rewrite Ht. reflexivity.
Qed.

(** X6: a message passes the validation exactly when it is a string
    with at least five code units left after trimming; trimming serves
    the test only, for what is then sent upstream is the string as it
    came, in a single call made on entry. *)
Theorem X6_valid_message_forwarded_untrimmed
    env sdk epoch payload userMessage contents :
  (forall v, invalidMessage v = false
             <-> exists s, v = JStr s /\ 5 <= JsString.len (JsString.trim s))
  /\ (accepted env sdk payload userMessage contents ->
      messageOf payload = JStr userMessage
      /\ 5 <= JsString.len (JsString.trim userMessage)
      /\ upstreamCalls (post env sdk epoch payload) = [(0, userMessage)]).
Proof.
  assert (Hchar : forall v, invalidMessage v = false
             <-> exists s, v = JStr s /\ 5 <= JsString.len (JsString.trim s)).
  { intros v. split.
    - intros Hv. destruct (valid_message_is_string v Hv) as [s ->].
      exists s. split; [reflexivity|].
      destruct (N.le_gt_cases 5 (JsString.len (JsString.trim s))) as [H|H];
        [exact H|].
      rewrite (invalidMessage_short s) in Hv by exact H. discriminate.
    - intros (s & -> & H). apply invalidMessage_valid, H. }
  split; [exact Hchar|].
  intros Hacc. pose proof Hacc as (Hm & Hv & _).
  split; [exact Hm|]. split.
  - apply Hchar in Hv. destruct Hv as (s & [= <-] & H). exact H.
  - apply (post_upstream_accepted _ _ _ _ _ _ Hacc).
Qed.

Lemma X6_witness :
  accepted ∅ Scenario.hangs
    [("message"%string, JStr (js "  hello  "))] (js "  hello  ") []
  /\ upstreamCalls (post ∅ Scenario.hangs 0
                      [("message"%string, JStr (js "  hello  "))])
     = [(0, js "  hello  ")].
Proof.
  assert (Hacc : accepted ∅ Scenario.hangs
                   [("message"%string, JStr (js "  hello  "))]
                   (js "  hello  ") []).
  { repeat split; vm_compute; reflexivity. }
  split; [exact Hacc|].
  apply (proj2 (X6_valid_message_forwarded_untrimmed ∅ Scenario.hangs 0
                  _ _ _) Hacc).
Defined.

Lemma mapContents_map items :
  Forall (λ msg, msg <> JNull /\ msg <> JUndefined) items ->
  mapContents items = inr (contentOf <$> items).
Proof.
  induction 1 as [|msg items [Hn Hu] _ IH]; [reflexivity|].
  cbn [mapContents fmap list_fmap]. rewrite IH.
  destruct msg; try reflexivity; [destruct Hu | destruct Hn]; reflexivity.
Qed.

(** X7: the history of the session is the [chatHistory] array mapped
    turn by turn, in order and one content per turn, each holding the
    turn's [role] and its [content] as the only part, whatever these
    values are, as long as no turn is [null] or [undefined]; an absent
    [chatHistory] gives the empty history. *)
Theorem X7_history_mapped_in_order env sdk epoch payload userMessage items :
  messageOf payload = JStr userMessage ->
  invalidMessage (JStr userMessage) = false ->
  chatHistoryOf payload = JArr items ->
  Forall (λ msg, msg <> JNull /\ msg <> JUndefined) items ->
  history <$> sessions (post env sdk epoch payload) = [contentOf <$> items]
  /\ (getField "chatHistory" payload = JUndefined ->
      items = [] /\ history <$> sessions (post env sdk epoch payload) = [[]]).
Proof.
  intros Hm Hv Hh Hall.
  assert (Hs : sessions (post env sdk epoch payload)
               = [sessionParams env (contentOf <$> items)]).
  { unfold post, enter. rewrite Hm, Hv, Hh. cbn [mapHistory].
    rewrite (mapContents_map items Hall).
    destruct (startChatThrows sdk _) as [e|] eqn:Hst.
    - rewrite drain_no_tasks by reflexivity. reflexivity.
    - pose proof (armed_responses env sdk epoch userMessage
                    (sessionParams env (contentOf <$> items))) as H.
      cbn zeta in H. tauto. }
  split; [rewrite Hs; reflexivity|].
  intros Hu. unfold chatHistoryOf in Hh. rewrite Hu in Hh.
  injection Hh as <-. split; [reflexivity|]. rewrite Hs. reflexivity.
Qed.

Lemma X7_witness :
  let turns := [JObj [("role"%string, JStr (js "user"));
                      ("content"%string, JStr (js "tenho um i5"))];
                JObj [("role"%string, JStr (js "model"));
                      ("content"%string, JStr (js "certo"))]] in
  let payload := [("message"%string, JStr (js "e a placa de video?"));
                  ("chatHistory"%string, JArr turns)] in
  Forall (λ msg, msg <> JNull /\ msg <> JUndefined) turns
  /\ history <$> sessions (post ∅ Scenario.hangs 0 payload)
     = [contentOf <$> turns].
Proof.
  cbn zeta.
  assert (Hall : Forall (λ msg, msg <> JNull /\ msg <> JUndefined)
                   [JObj [("role"%string, JStr (js "user"));
                          ("content"%string, JStr (js "tenho um i5"))];
                    JObj [("role"%string, JStr (js "model"));
                          ("content"%string, JStr (js "certo"))]]).
  { repeat constructor; discriminate. }
  split; [exact Hall|].
  refine (proj1 (X7_history_mapped_in_order ∅ Scenario.hangs 0 _
                   (js "e a placa de video?") _ _ _ _ Hall)).
  - reflexivity.
  - vm_compute. reflexivity.
  - reflexivity.
Defined.

Lemma mapHistory_error_500 chatHistory e :
  mapHistory chatHistory = inl e -> statusCode e = 500.
Proof.
  assert (Hc : forall items e', mapContents items = inl e' -> statusCode e' = 500).
  { induction items as [|msg items IH]; intros e'; cbn [mapContents];
      [discriminate|].
    destruct msg; cbn [toContent];
      try (intros [= <-]; vm_compute; reflexivity);
      (destruct (mapContents items) as [e0|cs]; [|discriminate];
       intros [= <-]; apply IH; reflexivity). }
  destruct chatHistory; cbn [mapHistory];
    try (intros [= <-]; vm_compute; reflexivity).
  apply Hc.
Qed.

(** X8: a request whose message is valid but whose [chatHistory] cannot
    be mapped (it is not an array, or one of its turns is [null]) is
    answered at once with status 500 by the [catch] block; no session is
    opened, no timer is armed and [sendMessage] is never called. *)
Theorem X8_unmappable_history_is_500 env sdk epoch payload e :
  invalidMessage (messageOf payload) = false ->
  mapHistory (chatHistoryOf payload) = inl e ->
  responses (post env sdk epoch payload) = [(0, errorResponse env e)]
  /\ status (errorResponse env e) = 500
  /\ sessions (post env sdk epoch payload) = []
  /\ upstreamCalls (post env sdk epoch payload) = []
  /\ fired (post env sdk epoch payload) = []
  /\ (forall v, chatHistoryOf payload = v ->
        match v with
        | JArr items =>
          ~ Forall (λ msg, msg <> JNull /\ msg <> JUndefined) items
        | _ => True
        end).
Proof.
  intros Hv He.
  destruct (valid_message_is_string _ Hv) as [s Hs].
  assert (Hp : post env sdk epoch payload
               = stamp (getModel env s :: catchBlock env e) idle).
  { unfold post, enter. rewrite Hv, Hs, He. apply drain_no_tasks; reflexivity. }
  rewrite Hp.
  split; [reflexivity|]. split; [apply (mapHistory_error_500 _ _ He)|].
  repeat split; try reflexivity.
  intros v Hch. rewrite Hch in He. destruct v; try exact I.
  cbn [mapHistory] in He. intros Hall.
  rewrite (mapContents_map _ Hall) in He. discriminate.
Qed.

Lemma X8_witness :
  let payload := [("message"%string, JStr (js "hello world"));
                  ("chatHistory"%string, JStr (js "user: hi"))] in
  invalidMessage (messageOf payload) = false
  /\ responses (post ∅ Scenario.hangs 0 payload)
     = [(0, errorResponse ∅
              {| message := js "chatHistory.map is not a function" |})]
  /\ upstreamCalls (post ∅ Scenario.hangs 0 payload) = [].
Proof.
  cbn zeta.
  assert (Hv : invalidMessage
                 (messageOf [("message"%string, JStr (js "hello world"));
                             ("chatHistory"%string, JStr (js "user: hi"))])
               = false) by (vm_compute; reflexivity).
  split; [exact Hv|].
  pose proof (X8_unmappable_history_is_500 ∅ Scenario.hangs 0 _
                {| message := js "chatHistory.map is not a function" |}
                Hv eq_refl) as (Hr & _ & _ & Hu & _).
  split; assumption.
Defined.

(** X9: when the call rejects before the deadline the handler answers
    at that moment from its [catch] block and never reaches
    [clearTimeout]: both timers stay armed, fire at 15 s, and [abort] is
    invoked then, once, on a call that has already failed. *)
Theorem X9_rejection_leaves_timers_armed
    env sdk epoch payload userMessage contents d e :
  accepted env sdk payload userMessage contents ->
  completion sdk = Some (d, Rejected e) ->
  d < timeoutMs ->
  responses (post env sdk epoch payload) = [(d, errorResponse env e)]
  /\ cleared (post env sdk epoch payload) = []
  /\ fired (post env sdk epoch payload)
     = [(timeoutMs, 1%nat); (timeoutMs, 2%nat)]
  /\ aborts (post env sdk epoch payload) = [timeoutMs].
Proof.
  intros Hacc Hc Hd. unfold post. rewrite (enter_accepted _ _ _ _ _ _ Hacc).
  pose proof (drain_rejected_early env sdk epoch userMessage
                (sessionParams env contents) d e Hc Hd) as H.
  observe H. repeat split; reflexivity.
Qed.

Lemma X9_witness :
  accepted ∅ (Scenario.fails 300 (js "quota exceeded")) Scenario.compare
    (js "Compare my i5 CPU to requirements") []
  /\ 300 < timeoutMs
  /\ aborts (post ∅ (Scenario.fails 300 (js "quota exceeded")) 0
               Scenario.compare) = [timeoutMs].
Proof.
  assert (Hacc : accepted ∅ (Scenario.fails 300 (js "quota exceeded"))
                   Scenario.compare
                   (js "Compare my i5 CPU to requirements") [])
    by (apply accepted_compare; reflexivity).
  assert (Hd : 300 < timeoutMs) by (vm_compute; reflexivity).
  pose proof (X9_rejection_leaves_timers_armed ∅ _ 0 Scenario.compare _ _
                300 _ Hacc eq_refl Hd) as (_ & _ & _ & Ha).
  split; [exact Hacc|]. split; [exact Hd | exact Ha].
Defined.

End HandlerFacts.

(** * The roulette: properties *)

Section RouletteFacts.

Import Roulette.

Lemma draw_in_range d : exists img, img ∈ imagens /\ imagens !! indexOf d = Some img.
Proof.
  destruct d; eexists; (split; [|reflexivity]); unfold imagens;
    repeat first [apply list_elem_of_here | apply list_elem_of_further].
Qed.

Lemma frame_in_range n :
  exists img, img ∈ imagens
              /\ imagens !! N.to_nat (n mod N.of_nat (length imagens)) = Some img.
Proof.
  assert (H : (N.to_nat (n mod N.of_nat (length imagens)) < length imagens)%nat).
  { pose proof (N.mod_upper_bound n (N.of_nat (length imagens))) as H.
    cbn in H |- *. lia. }
  destruct (lookup_lt_is_Some_2 _ _ H) as [img Himg].
  exists img. split; [|exact Himg].
  apply list_elem_of_lookup. eauto.
Qed.

Lemma step_started s e : started s = true -> started (step s e) = true.
Proof.
  unfold started. intros H. destruct e; cbn [step].
  - unfold leverClick. rewrite H. exact H.
  - unfold intervalTick. destruct (intervaloAnimacao s) eqn:E;
      [reflexivity | rewrite E; exact H].
  - unfold revealTimeout. destruct (reveal s); [apply Bool.orb_true_r | exact H].
Qed.

Lemma spins_started events : forall s, started s = true -> spins s events = 0%nat.
Proof.
  induction events as [|e rest IH]; intros s H; [reflexivity|].
  cbn [spins]. rewrite (IH _ (step_started s e H)).
  destruct e; try reflexivity. unfold started in H. rewrite H. reflexivity.
Qed.

Lemma step_settled s e : settledSlot s -> settledSlot (step s e).
Proof.
  unfold settledSlot. intros H. destruct e; cbn [step].
  - unfold leverClick.
    destruct (intervaloAnimacao s || imageRevelada s) eqn:E; [exact H|].
    cbn [imageRevelada]. intros Hr. rewrite Hr, Bool.orb_true_r in E. discriminate.
  - unfold intervalTick. destruct (intervaloAnimacao s) eqn:E;
      [|rewrite E; exact H].
    cbn [imageRevelada]. intros Hr. destruct (H Hr) as [H1 _]. discriminate.
  - unfold revealTimeout. destruct (reveal s) eqn:E; [|rewrite E; exact H].
    intros _. split; reflexivity.
Qed.

Lemma run_settled events : forall s, settledSlot s -> settledSlot (run s events).
Proof.
  induction events as [|e rest IH]; intros s H; [exact H|].
  apply IH, step_settled, H.
Qed.

(** X10: the roulette spins at most once.  Of all the clicks on the
    lever, in any order with the ticks of the animation and the reveal,
    at most one starts an animation; and once the image is revealed the
    state is final: no click, tick or timer changes it any more. *)
Theorem X10_roulette_spins_once events :
  (spins loaded events <= 1)%nat
  /\ (imageRevelada (run loaded events) = true ->
      forall e, step (run loaded events) e = run loaded events).
Proof.
  split.
  - assert (H : forall s, (spins s events <= 1)%nat).
    { induction events as [|e rest IH]; intros s; cbn [spins]; [lia|].
      destruct e; try apply IH.
      destruct (intervaloAnimacao s || imageRevelada s) eqn:E; [apply IH|].
      rewrite spins_started; [lia|].
      unfold started. cbn [step]. unfold leverClick. rewrite E. reflexivity. }
    apply H.
  - intros Hr e.
    assert (Hs : settledSlot (run loaded events)).
    { apply run_settled. intros H. discriminate. }
    destruct (Hs Hr) as [Hi Hv].
    destruct e; cbn [step].
    + unfold leverClick. rewrite Hr, Bool.orb_true_r. reflexivity.
    + unfold intervalTick. rewrite Hi. reflexivity.
    + unfold revealTimeout. rewrite Hv. reflexivity.
Qed.

Lemma step_spinning img s e :
  spinning img s ->
  (e = RevealTimeout /\ revealed img (step s e))
  \/ (e <> RevealTimeout /\ spinning img (step s e)).
Proof.
  intros (Hi & Hr & Hv). destruct e; cbn [step].
  - right. split; [discriminate|]. unfold leverClick. rewrite Hi.
    repeat split; assumption.
  - right. split; [discriminate|]. unfold intervalTick. rewrite Hi.
    repeat split; assumption.
  - left. split; [reflexivity|]. unfold revealTimeout. rewrite Hv.
    repeat split.
Qed.

Lemma step_revealed img s e : revealed img s -> revealed img (step s e).
Proof.
  intros (Hi & Hr & Hv & Hs). destruct e; cbn [step].
  - unfold leverClick. rewrite Hr, Bool.orb_true_r. repeat split; assumption.
  - unfold intervalTick. rewrite Hi. repeat split; assumption.
  - unfold revealTimeout. rewrite Hv. repeat split; assumption.
Qed.

Lemma run_revealed img events : forall s,
  revealed img s -> revealed img (run s events).
Proof.
  induction events as [|e rest IH]; intros s H; [exact H|].
  apply IH, step_revealed, H.
Qed.

Lemma run_spinning img events : forall s,
  spinning img s -> RevealTimeout ∈ events -> revealed img (run s events).
Proof.
  induction events as [|e rest IH]; intros s H Hin.
  - apply elem_of_nil in Hin. destruct Hin.
  - change (run s (e :: rest)) with (run (step s e) rest).
    destruct (step_spinning img s e H) as [[_ Hr] | [Hne Hs]].
    + apply run_revealed, Hr.
    + apply IH; [exact Hs|].
      apply elem_of_cons in Hin. destruct Hin as [Heq | Hin];
        [destruct Hne; symmetry; exact Heq | exact Hin].
Qed.

(** X11: after the first click, as soon as the 2.5 s timer has fired,
    the slot shows the image drawn at that click, the animation is
    stopped, and this stays so whatever ticks and clicks came before the
    timer or come after it. *)
Theorem X11_roulette_reveals_the_draw d after :
  RevealTimeout ∈ after ->
  exists img,
    imagens !! indexOf d = Some img
    /\ src (run loaded (LeverClick d :: after)) = Some (Some img)
    /\ imageRevelada (run loaded (LeverClick d :: after)) = true
    /\ intervaloAnimacao (run loaded (LeverClick d :: after)) = false.
Proof.
  intros Hin. destruct (draw_in_range d) as (img & _ & Himg).
  exists img. split; [exact Himg|].
  assert (H : revealed img (run loaded (LeverClick d :: after))).
  { change (run loaded (LeverClick d :: after))
      with (run (leverClick d loaded) after).
    apply run_spinning; [|exact Hin].
    unfold leverClick. cbn. rewrite Himg. repeat split. }
  destruct H as (Hi & Hr & _ & Hs). repeat split; assumption.
Qed.

Lemma X11_witness :
  RevealTimeout ∈ [IntervalTick; LeverClick First; IntervalTick;
                   RevealTimeout; IntervalTick; LeverClick Third]
  /\ src (run loaded
            (LeverClick Second
               :: [IntervalTick; LeverClick First; IntervalTick;
                   RevealTimeout; IntervalTick; LeverClick Third]))
     = Some (Some (js "assets/roleta2.png")).
Proof.
  assert (Hin : RevealTimeout ∈ [IntervalTick; LeverClick First; IntervalTick;
                                 RevealTimeout; IntervalTick; LeverClick Third]).
  { repeat first [apply list_elem_of_here | apply list_elem_of_further]. }
  split; [exact Hin|].
  destruct (X11_roulette_reveals_the_draw Second _ Hin)
    as (img & Himg & Hs & _).
  rewrite Hs. injection Himg as <-. reflexivity.
Defined.

Lemma step_fromImagens s e :
  fromImagens (src s) /\ fromImagens (reveal s) ->
  fromImagens (src (step s e)) /\ fromImagens (reveal (step s e)).
Proof.
  intros [Hs Hv]. destruct e; cbn [step].
  - unfold leverClick. destruct (intervaloAnimacao s || imageRevelada s);
      [tauto|]. cbn [src reveal]. split; [exact Hs|].
    destruct (draw_in_range d) as (img & Hin & ->). right. eauto.
  - unfold intervalTick. destruct (intervaloAnimacao s); [|tauto].
    cbn [src reveal]. split; [|exact Hv].
    destruct (frame_in_range (contador s)) as (img & Hin & ->). right. eauto.
  - unfold revealTimeout. destruct (reveal s) as [f|] eqn:E;
      [|rewrite E; tauto].
    cbn [src reveal]. split; [|left; reflexivity].
    destruct Hv as [Hv | (img & Hin & Hv)]; [discriminate|].
    right. exists img. split; [exact Hin|]. congruence.
Qed.

(** X12: the slot never shows a missing image: whatever happens, the
    [src] the script has assigned is one of the three entries of
    [imagens], because the frame index [contador % 3] and the drawn index
    both stay within the array. *)
Theorem X12_roulette_image_in_range events :
  src (run loaded events) = None
  \/ exists img, img ∈ imagens /\ src (run loaded events) = Some (Some img).
Proof.
  assert (H : forall s, fromImagens (src s) /\ fromImagens (reveal s) ->
                        fromImagens (src (run s events))
                        /\ fromImagens (reveal (run s events))).
  { induction events as [|e rest IH]; intros s Hs; [exact Hs|].
    apply IH, step_fromImagens, Hs. }
  apply (H loaded). split; left; reflexivity.
Qed.

End RouletteFacts.

(** * The questionnaire: properties *)

Section QuizFacts.

Import Quiz.

Lemma fetched_say e p :
  fetched (say e p)
  = fetched p ++ match e with Fetch c => [c] | _ => [] end.
Proof.
  unfold fetched, say. cbn [log]. rewrite omap_app.
  destruct e; reflexivity.
Qed.

Lemma view_say e p :
  (forall c, e <> Fetch c) -> view (say e p) = view p.
Proof.
  intros H. unfold view. rewrite fetched_say.
  destruct e; try (rewrite app_nil_r; reflexivity).
  destruct (H content). reflexivity.
Qed.

Lemma view_addClass el c p : view (addClass el c p) = view p.
Proof. reflexivity. Qed.

Lemma view_removeClass el c p : view (removeClass el c p) = view p.
Proof. reflexivity. Qed.

Lemma view_toggleClass el c b p : view (toggleClass el c b p) = view p.
Proof. destruct b; reflexivity. Qed.

Lemma view_showQuestion i p : view (pageOf (showQuestion i p)) = view p.
Proof.
  unfold showQuestion.
  destruct (questionAt i); cbn [pageOf throw].
  - rewrite view_addClass, view_say by discriminate.
    change (view (toggleClass "prev-btn" "hidden" (i =? 0)%Z p) = view p).
    apply view_toggleClass.
  - rewrite view_say by discriminate.
    change (view (toggleClass "prev-btn" "hidden" (i =? 0)%Z p) = view p).
    apply view_toggleClass.
Qed.

Lemma view_showThen i p :
  view (match showQuestion i p with
        | Threw p2 => p2
        | Completed p2 => updateProgress p2
        end) = view p.
Proof.
  rewrite <- (view_showQuestion i p).
  destruct (showQuestion i p); reflexivity.
Qed.

Lemma view_finishTest p :
  view (finishTest p)
  = (currentQuestionIndex p, answers p,
     fetched p ++ [prompt ++ textContent (answers p)]).
Proof.
  unfold finishTest, generateApiText, showLoader, view.
  rewrite !fetched_say. cbn [currentQuestionIndex answers say].
  rewrite app_nil_r.
  change (fetched (removeClass "loader" "hidden"
                     (addClass "loader" "show" (say (ConsoleLog [js "OK"]) p))))
    with (fetched (say (ConsoleLog [js "OK"]) p)).
  rewrite fetched_say, app_nil_r. reflexivity.
Qed.

Lemma validate_none f p :
  questionAt (currentQuestionIndex p) = None ->
  exists r, validateAnswer f p = (r, false) /\ view (pageOf r) = view p.
Proof.
  intros H. unfold validateAnswer. rewrite H. eexists. split; [reflexivity|].
  apply view_say. discriminate.
Qed.

Lemma validate_invalid f p q :
  questionAt (currentQuestionIndex p) = Some q ->
  entry f q = None ->
  exists r, validateAnswer f p = (r, false) /\ view (pageOf r) = view p.
Proof.
  intros H. unfold validateAnswer, entry. rewrite H.
  destruct (kind q).
  - destruct (checked f) as [v|].
    + destruct (JsString.eqb v (js "other")); [|discriminate].
      destruct (otherText f) as [t|].
      * destruct (blank t); [|discriminate]. intros _.
        eexists. split; [reflexivity|]. apply view_say. discriminate.
      * intros _. eexists. split; [reflexivity|]. apply view_say. discriminate.
    + intros _. eexists. split; [reflexivity|]. apply view_say. discriminate.
  - destruct (textValue f) as [t|].
    + destruct (blank t); [|discriminate]. intros _.
      eexists. split; [reflexivity|]. apply view_say. discriminate.
    + intros _. eexists. split; [reflexivity|]. apply view_say. discriminate.
Qed.

Lemma validate_valid f p q x :
  questionAt (currentQuestionIndex p) = Some q ->
  entry f q = Some x ->
  validateAnswer f p = (Completed p, true).
Proof.
  intros H. unfold validateAnswer, entry. rewrite H.
  destruct (kind q).
  - destruct (checked f) as [v|]; [|discriminate].
    destruct (JsString.eqb v (js "other")); [|reflexivity].
    destruct (otherText f) as [t|]; [|discriminate].
    destruct (blank t); [discriminate | reflexivity].
  - destruct (textValue f) as [t|]; [|discriminate].
    destruct (blank t); [discriminate | reflexivity].
Qed.

Lemma save_valid f p q x :
  questionAt (currentQuestionIndex p) = Some q ->
  entry f q = Some x ->
  exists p2,
    saveAnswer f p = Completed p2
    /\ currentQuestionIndex p2 = currentQuestionIndex p
    /\ answers p2 = <[ident q := x]> (answers p)
    /\ fetched p2 = fetched p.
Proof.
  intros H. unfold saveAnswer, entry. rewrite H.
  destruct (kind q).
  - destruct (checked f) as [v|]; [|discriminate].
    destruct (JsString.eqb v (js "other")).
    + destruct (otherText f) as [t|]; [|discriminate].
      destruct (blank t); [discriminate|]. intros [= <-].
      eexists. split; [reflexivity|]. repeat split.
    + intros [= <-]. eexists. split; [reflexivity|]. repeat split.
  - destruct (textValue f) as [t|]; [|discriminate].
    destruct (blank t); [discriminate|]. intros [= <-].
    eexists. split; [reflexivity|]. repeat split.
Qed.

Lemma view_goToNextQuestion f p :
  view (goToNextQuestion f p) = stepView (view p) (NextClick f).
Proof.
  unfold goToNextQuestion, stepView, view at 2.
  destruct (questionAt (currentQuestionIndex p)) as [q|] eqn:Hq.
  - destruct (entry f q) as [x|] eqn:He.
    + rewrite (validate_valid f p q x Hq He).
      destruct (save_valid f p q x Hq He) as (p2 & -> & Hi & Ha & Hf).
      rewrite Hi.
      destruct (currentQuestionIndex p <? lastIndex)%Z.
      * cbn [currentQuestionIndex setIndex]. rewrite view_showThen.
        unfold view. cbn [currentQuestionIndex answers setIndex].
        rewrite Ha. change (fetched (setIndex ?i p2)) with (fetched p2).
        rewrite Hf. reflexivity.
      * rewrite view_finishTest, Hi, Ha, Hf. reflexivity.
    + destruct (validate_invalid f p q Hq He) as (r & -> & Hr).
      destruct r; exact Hr.
  - destruct (validate_none f p Hq) as (r & -> & Hr).
    destruct r; exact Hr.
Qed.

Lemma view_apiReplied r p : view (apiReplied r p) = view p.
Proof.
  destruct r; unfold apiReplied.
  - unfold view. cbn [currentQuestionIndex answers setResponseText].
    change (fetched (setResponseText content ?q)) with (fetched q).
    rewrite fetched_say, app_nil_r. reflexivity.
  - rewrite view_say by discriminate. reflexivity.
  - apply view_say. discriminate.
Qed.

(** The index, the answers and the requests evolve as [stepView] says,
    whatever the document holds. *)
Lemma view_step p e : view (step p e) = stepView (view p) e.
Proof.
  destruct e; cbn [step].
  - unfold startTest. rewrite view_showQuestion. reflexivity.
  - apply view_goToNextQuestion.
  - unfold goToPreviousQuestion. rewrite view_showThen. reflexivity.
  - reflexivity.
  - rewrite view_apiReplied. unfold stepView, view. reflexivity.
  - reflexivity.
Qed.

Lemma view_run events : forall p,
  view (run p events) = foldl stepView (view p) events.
Proof.
  induction events as [|e rest IH]; intros p; [reflexivity|].
  change (run p (e :: rest)) with (run (step p e) rest).
  rewrite IH, view_step. reflexivity.
Qed.

End QuizFacts.

Section QuizTheorems.

Import Quiz.

Lemma questionAt_ident i q :
  questionAt i = Some q ->
  (0 <= i)%Z /\ idents !! Z.to_nat i = Some (ident q).
Proof.
  unfold questionAt. destruct (Z.ltb_spec i 0) as [Hneg | Hpos]; [discriminate|].
  intros Hq. split; [assumption|]. unfold idents.
  rewrite list_lookup_fmap, Hq. reflexivity.
Qed.

Lemma idents_lookup k :
  k ∈ idents -> exists n, idents !! n = Some k /\ (n < 6)%nat.
Proof.
  intros H. apply list_elem_of_lookup in H. destruct H as [n Hn].
  exists n. split; [exact Hn|]. apply lookup_lt_Some in Hn. exact Hn.
Qed.

Lemma stepView_stores i a q x n k :
  steady (i, a, []) ->
  questionAt i = Some q ->
  idents !! n = Some k -> (Z.of_nat n <= i)%Z ->
  is_Some (<[ident q := x]> a !! k).
Proof.
  intros (_ & Ha) Hq Hn Hle.
  destruct (questionAt_ident i q Hq) as [H0 Hk].
  destruct (decide (ident q = k)) as [<- | Hne].
  - rewrite lookup_insert_eq. eauto.
  - rewrite lookup_insert_ne by exact Hne.
    apply (Ha n k Hn).
    assert (Z.of_nat n <> i); [|lia].
    intros Heq. subst i. rewrite Nat2Z.id in Hk. congruence.
Qed.

Lemma stepView_steady v e : steady v -> steady (stepView v e).
Proof.
  destruct v as [[i a] sent]. intros H. pose proof H as (Hi & Ha).
  destruct e; cbn [stepView]; try exact H.
  - destruct (questionAt i) as [q|] eqn:Hq; [|exact H].
    destruct (entry f q) as [x|]; [|exact H].
    change lastIndex with 5%Z.
    destruct (Z.ltb_spec i 5).
    + split; [lia|].
      intros n k Hn Hlt. apply (stepView_stores i a q x n k H Hq Hn). lia.
    + split; [exact Hi|].
      intros n k Hn Hlt. apply (stepView_stores i a q x n k H Hq Hn). lia.
  - split; [lia|].
    intros n k Hn Hlt. apply (Ha n k Hn). lia.
  - split; [lia|]. intros n k Hn Hlt. lia.
Qed.

Lemma run_steady events : forall p, steady (view p) -> steady (view (run p events)).
Proof.
  induction events as [|e rest IH]; intros p H; [exact H|].
  change (run p (e :: rest)) with (run (step p e) rest).
  apply IH. rewrite view_step. apply stepView_steady, H.
Qed.

Lemma loaded_steady p : freshlyLoaded p -> steady (view p).
Proof.
  intros (Hi & Ha & _ & Hl). unfold view, steady.
  rewrite Hi. split; [lia|].
  intros n k Hn Hlt. lia.
Qed.

Lemma run_snoc p events e : run p (events ++ [e]) = step (run p events) e.
Proof. unfold run. rewrite foldl_app. reflexivity. Qed.

(** A step sends nothing, or it is a click on the next button made on
    the last question, which sends the answers as they then are, all six
    of them. *)
Lemma step_sends p e :
  steady (view p) ->
  fetched (step p e) = fetched p
  \/ exists f,
       e = NextClick f
       /\ currentQuestionIndex p = lastIndex
       /\ fetched (step p e)
          = fetched p ++ [prompt ++ textContent (answers (step p e))]
       /\ complete (answers (step p e)).
Proof.
  intros Hs.
  assert (Ha : answers (step p e) = (stepView (view p) e).1.2)
    by (rewrite <- view_step; reflexivity).
  assert (Hf : fetched (step p e) = (stepView (view p) e).2)
    by (rewrite <- view_step; reflexivity).
  unfold view in Ha, Hf, Hs.
  destruct e; cbn [stepView fst snd] in Ha, Hf; try (left; exact Hf).
  destruct (questionAt (currentQuestionIndex p)) as [q|] eqn:Hq;
    [|left; exact Hf].
  destruct (entry f q) as [x|]; [|left; exact Hf].
  destruct (Z.ltb_spec (currentQuestionIndex p) lastIndex) as [Hlt | Hge];
    [left; exact Hf|].
  cbn [fst snd] in Ha, Hf. right. exists f.
  assert (Hlast : currentQuestionIndex p = lastIndex).
  { destruct Hs as [Hi _]. change lastIndex with 5%Z in *. lia. }
  split; [reflexivity|]. split; [exact Hlast|].
  split; [rewrite Hf, Ha; reflexivity|].
  rewrite Ha. intros k Hin.
  destruct (idents_lookup k Hin) as (n & Hn & Hlt).
  assert (Hsteady : steady (currentQuestionIndex p, answers p, []))
    by (destruct Hs as [Hi Hans]; split; assumption).
  apply (stepView_stores _ _ q x n k Hsteady Hq Hn).
  rewrite Hlast. change lastIndex with 5%Z. lia.
Qed.

(** X13: a request is only ever sent by a click on the next button made
    on the last question, and what it sends is the instruction followed
    by the six lines built from the answers that the page holds at that
    moment, in which every one of the six questions has a stored value.
    So however the buttons are clicked and whatever is typed, no line of
    a request is filled from a missing answer. *)
Theorem X13_request_has_all_answers p events content :
  freshlyLoaded p ->
  content ∈ fetched (run p events) ->
  exists before f after,
    events = before ++ NextClick f :: after
    /\ currentQuestionIndex (run p before) = lastIndex
    /\ fetched (run p (before ++ [NextClick f]))
       = fetched (run p before) ++ [content]
    /\ content
       = prompt ++ textContent (answers (run p (before ++ [NextClick f])))
    /\ forall q, q ∈ questions ->
         is_Some (answers (run p (before ++ [NextClick f])) !! ident q).
Proof.
  intros Hp. induction events as [|e events IH] using rev_ind; intros Hin.
  - destruct Hp as (_ & _ & _ & Hl). unfold run, fetched in Hin.
    cbn [foldl] in Hin. rewrite Hl in Hin. apply elem_of_nil in Hin.
    destruct Hin.
  - assert (Hold : content ∈ fetched (run p events) ->
              exists before f after,
                events ++ [e] = before ++ NextClick f :: after
                /\ currentQuestionIndex (run p before) = lastIndex
                /\ fetched (run p (before ++ [NextClick f]))
                   = fetched (run p before) ++ [content]
                /\ content
                   = prompt
                     ++ textContent (answers (run p (before ++ [NextClick f])))
                /\ forall q, q ∈ questions ->
                     is_Some (answers (run p (before ++ [NextClick f]))
                                !! ident q)).
    { intros H. destruct (IH H) as (before & f & after & -> & Hrest).
      exists before, f, (after ++ [e]). split; [|exact Hrest].
      rewrite <- app_assoc. reflexivity. }
    rewrite run_snoc in Hin.
    destruct (step_sends (run p events) e
                (run_steady events p (loaded_steady p Hp)))
      as [Hsame | (f & -> & Hlast & Hf & Hc)].
    + rewrite Hsame in Hin. exact (Hold Hin).
    + rewrite Hf in Hin. apply elem_of_app in Hin.
      destruct Hin as [Hin | Hin]; [exact (Hold Hin)|].
      apply list_elem_of_singleton in Hin. subst content.
      exists events, f, []. rewrite run_snoc.
      split; [reflexivity|]. split; [exact Hlast|].
      split; [exact Hf|]. split; [reflexivity|].
      intros q Hq. apply Hc. unfold idents. apply list_elem_of_fmap. eauto.
Qed.

Lemma X13_witness :
  freshlyLoaded blankPage
  /\ prompt ++ textContent (answers (run blankPage fullRun))
       ∈ fetched (run blankPage fullRun)
  /\ exists before f after,
       fullRun = before ++ NextClick f :: after
       /\ currentQuestionIndex (run blankPage before) = lastIndex.
Proof.
  assert (Hp : freshlyLoaded blankPage) by (repeat split).
  assert (Hin : prompt ++ textContent (answers (run blankPage fullRun))
                  ∈ fetched (run blankPage fullRun)).
  { vm_compute. apply list_elem_of_here. }
  destruct (X13_request_has_all_answers blankPage fullRun _ Hp Hin)
    as (before & f & after & Heq & Hlast & _).
  split; [exact Hp|]. split; [exact Hin|].
  exists before, f, after. split; [exact Heq | exact Hlast].
Defined.

Lemma index_step p e :
  currentQuestionIndex (step p e) = (stepView (view p) e).1.1.
Proof. rewrite <- view_step. reflexivity. Qed.

Lemma stepView_index_lower v e :
  (0 <= v.1.1)%Z -> (e = PrevClick -> (0 < v.1.1)%Z) ->
  (0 <= (stepView v e).1.1)%Z.
Proof.
  destruct v as [[i a] sent]. cbn [fst]. intros H0 Hg.
  destruct e; cbn [stepView fst]; try assumption; try lia.
  - destruct (questionAt i) as [q|]; [|assumption].
    destruct (entry f q); [|assumption].
    destruct (i <? lastIndex)%Z; cbn [fst]; lia.
  - specialize (Hg eq_refl). lia.
Qed.

(** X14: the index of the current question never exceeds the last
    question, whatever is clicked; and it never drops below the first as
    long as the previous button is not clicked on the first question,
    which is what hiding that button at index 0 is for. *)
Theorem X14_index_within_bounds p events :
  freshlyLoaded p ->
  (currentQuestionIndex (run p events) <= lastIndex)%Z
  /\ (previousOnlyPastFirst p events ->
      (0 <= currentQuestionIndex (run p events))%Z
      /\ is_Some (questionAt (currentQuestionIndex (run p events)))).
Proof.
  intros Hp.
  assert (Hup : (currentQuestionIndex (run p events) <= lastIndex)%Z).
  { pose proof (run_steady events p (loaded_steady p Hp)) as H.
    unfold view, steady in H. destruct H as (H & _). exact H. }
  split; [exact Hup|]. intros Hg.
  assert (Hlow : forall p', (0 <= currentQuestionIndex p')%Z ->
                   previousOnlyPastFirst p' events ->
                   (0 <= currentQuestionIndex (run p' events))%Z).
  { clear. induction events as [|e rest IH]; intros p' H0 Hg; [exact H0|].
    destruct Hg as [Hg1 Hg2].
    change (run p' (e :: rest)) with (run (step p' e) rest).
    apply IH; [|exact Hg2]. rewrite index_step.
    apply stepView_index_lower; [exact H0 | exact Hg1]. }
  assert (H0 : (0 <= currentQuestionIndex (run p events))%Z).
  { apply Hlow; [|exact Hg]. destruct Hp as (-> & _). lia. }
  split; [exact H0|].
  unfold questionAt. destruct (Z.ltb_spec (currentQuestionIndex (run p events)) 0);
    [lia|].
  apply lookup_lt_is_Some_2. change lastIndex with 5%Z in Hup.
  change (length questions) with 6%nat. lia.
Qed.

Lemma X14_witness :
  freshlyLoaded blankPage
  /\ previousOnlyPastFirst blankPage fullRun
  /\ (0 <= currentQuestionIndex (run blankPage fullRun) <= lastIndex)%Z.
Proof.
  assert (Hp : freshlyLoaded blankPage) by (repeat split).
  assert (Hg : previousOnlyPastFirst blankPage fullRun).
  { unfold fullRun. cbn [previousOnlyPastFirst].
    repeat (split;
            [intros Hc; first [discriminate Hc | vm_compute; reflexivity]|]).
    exact I. }
  destruct (X14_index_within_bounds blankPage fullRun Hp) as [Hup Hlow].
  destruct (Hlow Hg) as [H0 _].
  split; [exact Hp|]. split; [exact Hg|]. split; [exact H0 | exact Hup].
Defined.

(** X15: [goToPreviousQuestion] checks no bound.  Run on the first
    question it leaves the index at -1 and stops at an uncaught
    TypeError before the progress bar is updated; from then on a click on
    the next button, whatever the form holds, stores nothing, sends
    nothing and only throws again. *)
Theorem X15_previous_below_first p f :
  currentQuestionIndex p = 0%Z ->
  currentQuestionIndex (goToPreviousQuestion p) = (-1)%Z
  /\ uncaught (goToPreviousQuestion p)
     = uncaught p
       ++ [{| message :=
                js "Cannot read properties of undefined (reading 'question')" |}]
  /\ progressWidth (goToPreviousQuestion p) = progressWidth p
  /\ view (goToNextQuestion f (goToPreviousQuestion p))
     = view (goToPreviousQuestion p)
  /\ uncaught (goToNextQuestion f (goToPreviousQuestion p))
     = uncaught (goToPreviousQuestion p)
       ++ [{| message :=
                js "Cannot read properties of undefined (reading 'type')" |}].
Proof.
  intros H0.
  assert (Hprev : goToPreviousQuestion p
                  = say (Uncaught {| message :=
                           js "Cannot read properties of undefined (reading 'question')" |})
                      (setNextBtnHtml (js "Próxima Pergunta" ++ arrow)
                         (removeClass "prev-btn" "hidden" (setIndex (-1) p)))).
  { unfold goToPreviousQuestion. rewrite H0. reflexivity. }
  rewrite Hprev.
  set (p1 := say _ _).
  assert (Hi : currentQuestionIndex p1 = (-1)%Z) by reflexivity.
  assert (Hnext : goToNextQuestion f p1
                  = say (Uncaught {| message :=
                           js "Cannot read properties of undefined (reading 'type')" |})
                      p1).
  { unfold goToNextQuestion, validateAnswer. rewrite Hi. reflexivity. }
  rewrite Hnext.
  split; [reflexivity|]. split.
  { unfold uncaught, p1, say. cbn [log]. rewrite omap_app. reflexivity. }
  split; [reflexivity|]. split.
  { apply view_say. discriminate. }
  unfold uncaught at 1, say at 1. cbn [log]. rewrite omap_app. reflexivity.
Qed.

Lemma X15_witness :
  currentQuestionIndex blankPage = 0%Z
  /\ currentQuestionIndex (goToPreviousQuestion blankPage) = (-1)%Z.
Proof.
  split; [reflexivity|].
  apply (proj1 (X15_previous_below_first blankPage (picks (js "linux"))
                  eq_refl)).
Defined.

Lemma entry_same f f' q :
  sameButSpecification f f' -> entry f q = entry f' q.
Proof.
  intros (Hc & Ht & Hb). unfold entry. rewrite <- Hc, <- Ht.
  destruct (kind q); [|reflexivity].
  destruct (checked f) as [v|]; [|reflexivity].
  destruct (JsString.eqb v (js "other")); [|reflexivity].
  destruct (otherText f) as [t|], (otherText f') as [t'|];
    try rewrite Hb; try rewrite <- Hb; reflexivity.
Qed.

Lemma stepView_same v e e' :
  sameButSpecifications e e' -> stepView v e = stepView v e'.
Proof.
  destruct v as [[i a] sent].
  destruct e, e'; cbn [sameButSpecifications]; try discriminate;
    try (intros [= <-]; reflexivity); try reflexivity.
  intros H. cbn [stepView]. destruct (questionAt i) as [q|]; [|reflexivity].
  rewrite (entry_same f f0 q H). reflexivity.
Qed.

(** X16: the text typed to specify the option "other" never reaches a
    request.  Two runs from the same page in which the same buttons are
    clicked on the same forms, except that the specifications may read
    differently (blank or missing in both, or not in both), store the same
    answers and send the same requests. *)
Theorem X16_specification_never_sent p events events' :
  Forall2 sameButSpecifications events events' ->
  fetched (run p events) = fetched (run p events')
  /\ answers (run p events) = answers (run p events')
  /\ currentQuestionIndex (run p events)
     = currentQuestionIndex (run p events').
Proof.
  intros H.
  assert (Hv : view (run p events) = view (run p events')).
  { rewrite !view_run. generalize (view p).
    induction H as [|e e' es es' He _ IH]; intros v; [reflexivity|].
    cbn [foldl]. rewrite (stepView_same v e e' He). apply IH. }
  unfold view in Hv. injection Hv as Hi Ha Hf. repeat split; assumption.
Qed.

Lemma X16_witness :
  Forall2 sameButSpecifications
    [StartClick; NextClick (specifies (js "Windows 11"))]
    [StartClick; NextClick (specifies (js "FreeBSD"))]
  /\ answers (run blankPage
                [StartClick; NextClick (specifies (js "Windows 11"))])
     = answers (run blankPage
                  [StartClick; NextClick (specifies (js "FreeBSD"))])
  /\ answers (run blankPage
                [StartClick; NextClick (specifies (js "Windows 11"))])
       !! "os"%string = Some (js "other").
Proof.
  assert (H : Forall2 sameButSpecifications
                [StartClick; NextClick (specifies (js "Windows 11"))]
                [StartClick; NextClick (specifies (js "FreeBSD"))]).
  { constructor; [reflexivity|]. constructor; [|constructor].
    repeat split. }
  split; [exact H|].
  split; [apply (X16_specification_never_sent blankPage _ _ H)|].
  vm_compute. reflexivity.
Defined.

End QuizTheorems.
